(** * Feed ranker of [custom_feed.py]: a shallow embedding of [generate_feed]

    The Python function [generate_feed] counts the authors of all posts,
    keeps the posts of followed authors, writes a [final_score] into each of
    them (in place) and returns them sorted by that score, best first.

    Modelling choices.
    - Python [int] is [Z]; Python [float] is idealised as a real number [R]
      (exact arithmetic, no rounding, no overflow).
    - Python 3 number semantics: a negative float raised to a non-integral
      power is a [complex]; complex numbers multiply and divide as usual and
      cannot be ordered ([<] raises [TypeError]).
    - A post is a [dict]; a key that may be absent is an [option] field and
      [post['k']] on an absent key raises [KeyError].
    - Posts are objects: the list [posts] holds references ([loc]) into a
      [heap], so an object listed twice is one object, and the assignment
      [post['final_score'] = ...] updates the heap.
    - [time.time()] is read once for every scored post; [clock k] is the
      value of the [k]-th reading made by the call. *)

From Stdlib Require Import Reals Lra ZArith Permutation Sorted.
From stdpp Require Import gmap strings list.

Open Scope R_scope.

(** ** Python values and exceptions *)

Inductive pyerr : Type :=
| KeyError (key : string)
| TypeError
| ZeroDivisionError.

Inductive result (A : Type) : Type :=
| Ok (a : A)
| Raise (e : pyerr).
Arguments Ok {A} a.
Arguments Raise {A} e.

#[global] Instance result_ret : MRet result := fun _ a => Ok a.
#[global] Instance result_bind : MBind result := fun _ _ f m =>
  match m with
  | Ok a => f a
  | Raise e => Raise e
  end.

(** A Python number as the program meets them: a float or a complex. *)
Inductive pynum : Type :=
| PyFloat (x : R)
| PyComplex (re im : R).

#[global] Instance Rlt_decision : RelDecision Rlt := Rlt_dec.
#[global] Instance Req_decision : EqDecision R := Req_dec_T.

Definition re_part (a : pynum) : R :=
  match a with PyFloat x => x | PyComplex re _ => re end.
Definition im_part (a : pynum) : R :=
  match a with PyFloat _ => 0 | PyComplex _ im => im end.

Definition is_float (a : pynum) : Prop :=
  match a with PyFloat _ => True | PyComplex _ _ => False end.

(** [a + b] *)
Definition py_add (a b : pynum) : pynum :=
  match a, b with
  | PyFloat x, PyFloat y => PyFloat (x + y)
  | _, _ => PyComplex (re_part a + re_part b) (im_part a + im_part b)
  end.

(** [a * b] *)
Definition py_mul (a b : pynum) : pynum :=
  match a, b with
  | PyFloat x, PyFloat y => PyFloat (x * y)
  | _, _ => PyComplex (re_part a * re_part b - im_part a * im_part b)
                      (re_part a * im_part b + im_part a * re_part b)
  end.

(** [a / b]; a zero divisor raises [ZeroDivisionError]. *)
Definition py_div (a b : pynum) : result pynum :=
  match a, b with
  | PyFloat x, PyFloat y =>
      if decide (y = 0) then Raise ZeroDivisionError else Ok (PyFloat (x / y))
  | _, _ =>
      let d := re_part b * re_part b + im_part b * im_part b in
      if decide (re_part b = 0 /\ im_part b = 0) then Raise ZeroDivisionError
      else Ok (PyComplex ((re_part a * re_part b + im_part a * im_part b) / d)
                         ((im_part a * re_part b - re_part a * im_part b) / d))
  end.

(** [x ** y] on floats, for an exponent [y] that is positive and not an
    integer (the program only uses [1.2]): zero stays zero, a positive base
    gives the real power, and a negative base gives the complex number of
    modulus [(-x) ** y] and argument [y * pi]. *)
Definition float_pow (x y : R) : pynum :=
  if decide (0 < x) then PyFloat (Rpower x y)
  else if decide (x = 0) then PyFloat 0
  else PyComplex (Rpower (- x) y * cos (y * PI)) (Rpower (- x) y * sin (y * PI)).

(** [a < b]: only floats are ordered. *)
Definition py_lt (a b : pynum) : result bool :=
  match a, b with
  | PyFloat x, PyFloat y => Ok (bool_decide (x < y))
  | _, _ => Raise TypeError
  end.

(** ** Posts, the heap and the viewer context *)

Record post : Type := mkPost {
  author : option string;
  likes : option Z;
  reposts : option Z;
  comments : option Z;
  quotes : option Z;
  hashtags : option (list string);
  content_format : option string;
  engaged_by_followers : option Z;
  timestamp : option R;
  final_score : option pynum
}.

(** [post[key]] *)
Definition getitem {A : Type} (key : string) (field : option A) : result A :=
  match field with
  | Some v => Ok v
  | None => Raise (KeyError key)
  end.

(** [post['final_score'] = s] *)
Definition set_final_score (s : pynum) (p : post) : post :=
  mkPost (author p) (likes p) (reposts p) (comments p) (quotes p) (hashtags p)
         (content_format p) (engaged_by_followers p) (timestamp p) (Some s).

Definition loc : Type := nat.
Definition heap : Type := loc -> post.

Definition store (h : heap) (l : loc) (p : post) : heap :=
  fun l' => if Nat.eqb l' l then p else h l'.

(** ** The nested scoring functions of [generate_feed] *)

Section Scoring.

Variable interaction_history : gmap string Z.
Variable trending_hashtags : gset string.
Variable format_preferences : gmap string Z.

Definition engagement_score (p : post) : result R :=
  l ← getitem "likes" (likes p);
  r ← getitem "reposts" (reposts p);
  c ← getitem "comments" (comments p);
  q ← getitem "quotes" (quotes p);
  mret (IZR l * 1.8 + IZR r * 1.4 + IZR c * 3 + IZR q * 4.5).

Definition virality_bonus (p : post) : Z :=
  (default 0 (engaged_by_followers p) * 2)%Z.

Definition hashtag_bonus (p : post) : result Z :=
  hs ← getitem "hashtags" (hashtags p);
  let post_hashtags : gset string := list_to_set hs in
  let matching_hashtags := post_hashtags ∩ trending_hashtags in
  mret (Z.of_nat (size matching_hashtags) * 3)%Z.

Definition interaction_bonus (p : post) : result Z :=
  a ← getitem "author" (author p);
  mret (default 0 (interaction_history !! a) * 2)%Z.

Definition content_format_bonus (p : post) : result Z :=
  f ← getitem "content_format" (content_format p);
  let format_weight := default 1%Z (format_preferences !! f) in
  mret (format_weight * 2)%Z.

Definition time_decay (current_time : R) (p : post) : result pynum :=
  ts ← getitem "timestamp" (timestamp p);
  let hours_since_post := (current_time - ts) / 3600 in
  py_div (PyFloat 1) (py_add (PyFloat 1) (float_pow hours_since_post 1.2)).

Definition diversity_penalty (p : post) (author_frequency : gmap string Z) : result R :=
  a ← getitem "author" (author p);
  let penalty_factor := 1 - IZR (default 0%Z (author_frequency !! a)) * 0.02 in
  mret (Rmax penalty_factor 0.9).

(** The right-hand side of [post['final_score'] = ...]; [current_time] is
    the reading of [time.time()] made inside [time_decay]. *)
Definition score (author_frequency : gmap string Z) (current_time : R) (p : post)
  : result pynum :=
  e ← engagement_score p;
  let v := virality_bonus p in
  hb ← hashtag_bonus p;
  ib ← interaction_bonus p;
  fb ← content_format_bonus p;
  td ← time_decay current_time p;
  dp ← diversity_penalty p author_frequency;
  mret (py_mul (py_mul (PyFloat (e + IZR v + IZR hb + IZR ib + IZR fb)) td) (PyFloat dp)).

(** The loop [for post in relevant_posts: post['final_score'] = ...]; the
    [k]-th scored post reads [clock k]. An exception leaves the posts
    already scored as they are. *)
Fixpoint score_posts (clock : nat -> R) (author_frequency : gmap string Z)
    (k : nat) (ls : list loc) (h : heap) : result unit * heap :=
  match ls with
  | [] => (Ok tt, h)
  | l :: ls' =>
      match score author_frequency (clock k) (h l) with
      | Raise e => (Raise e, h)
      | Ok s => score_posts clock author_frequency (S k) ls' (store h l (set_final_score s (h l)))
      end
  end.

End Scoring.

(** ** [Counter], the filter and [sorted] *)

(** [Counter(iterable)]: every element adds one to its count. *)
Definition Counter (xs : list string) : gmap string Z :=
  fold_left (fun m a => <[a := (default 0 (m !! a) + 1)%Z]> m) xs ∅.

(** [post['author'] for post in posts] *)
Fixpoint authors_of (h : heap) (posts : list loc) : result (list string) :=
  match posts with
  | [] => Ok []
  | l :: ls =>
      a ← getitem "author" (author (h l));
      rest ← authors_of h ls;
      mret (a :: rest)
  end.

(** [[post for post in posts if post['author'] in user_follows]] *)
Fixpoint followed_posts (user_follows : gset string) (h : heap) (posts : list loc)
  : result (list loc) :=
  match posts with
  | [] => Ok []
  | l :: ls =>
      a ← getitem "author" (author (h l));
      rest ← followed_posts user_follows h ls;
      mret (if decide (a ∈ user_follows) then l :: rest else rest)
  end.

(** Insertion of an element [x] that stood before all of [ys] in the input:
    it passes the elements with a strictly greater key and stops at the first
    key that is not greater, so equal keys keep the input order. *)
Fixpoint insert_desc {A : Type} (kx : pynum) (x : A) (ys : list (pynum * A))
  : result (list (pynum * A)) :=
  match ys with
  | [] => Ok [(kx, x)]
  | (ky, y) :: ys' =>
      b ← py_lt kx ky;
      if (b : bool) then r ← insert_desc kx x ys'; mret ((ky, y) :: r)
      else mret ((kx, x) :: (ky, y) :: ys')
  end.

Fixpoint sort_desc {A : Type} (xs : list (pynum * A)) : result (list (pynum * A)) :=
  match xs with
  | [] => Ok []
  | (kx, x) :: xs' => r ← sort_desc xs'; insert_desc kx x r
  end.

Fixpoint keyed {A : Type} (key : A -> result pynum) (xs : list A)
  : result (list (pynum * A)) :=
  match xs with
  | [] => Ok []
  | x :: xs' => k ← key x; rest ← keyed key xs'; mret ((k, x) :: rest)
  end.

(** [sorted(xs, key=key, reverse=True)]: the keys are computed once, then
    the list is sorted stably, greatest key first, comparing keys with [<]. *)
Definition sorted_reverse {A : Type} (key : A -> result pynum) (xs : list A)
  : result (list A) :=
  ks ← keyed key xs;
  r ← sort_desc ks;
  mret (map snd r).

(** ** [generate_feed] *)

Definition generate_feed (clock : nat -> R) (h : heap) (posts : list loc)
    (user_follows : gset string) (interaction_history : gmap string Z)
    (trending_hashtags : gset string) (format_preferences : gmap string Z)
  : result (list loc) * heap :=
  match authors_of h posts with
  | Raise e => (Raise e, h)
  | Ok authors =>
      let author_frequency := Counter authors in
      match followed_posts user_follows h posts with
      | Raise e => (Raise e, h)
      | Ok relevant_posts =>
          match score_posts interaction_history trending_hashtags format_preferences
                  clock author_frequency 0 relevant_posts h with
          | (Raise e, h') => (Raise e, h')
          | (Ok _, h') =>
              (sorted_reverse (fun l => getitem "final_score" (final_score (h' l)))
                 relevant_posts, h')
          end
      end
  end.

(** ** Notions used to state the properties, and the data of the examples *)

(** The real power on a non-negative base: what [x ** y] is there. *)
Definition rpow (x y : R) : R := if decide (x = 0) then 0 else Rpower x y.

(** The keys that [score] reads with [post[...]]: all the required ones but
    [engaged_by_followers], which is read with [post.get(..., 0)]. *)
Definition complete (p : post) : Prop :=
  is_Some (author p) /\ is_Some (likes p) /\ is_Some (reposts p) /\
  is_Some (comments p) /\ is_Some (quotes p) /\ is_Some (hashtags p) /\
  is_Some (content_format p) /\ is_Some (timestamp p).

(** The additive part of the score, on a post that has the keys. *)
Definition bundle (interaction_history : gmap string Z)
    (trending_hashtags : gset string) (format_preferences : gmap string Z)
    (p : post) : R :=
  IZR (default 0%Z (likes p)) * 1.8 + IZR (default 0%Z (reposts p)) * 1.4 +
  IZR (default 0%Z (comments p)) * 3 + IZR (default 0%Z (quotes p)) * 4.5 +
  IZR (default 0%Z (engaged_by_followers p) * 2) +
  IZR (Z.of_nat (size ((list_to_set (default [] (hashtags p)) : gset string)
                         ∩ trending_hashtags)) * 3) +
  IZR (default 0%Z (interaction_history !! default ""%string (author p)) * 2) +
  IZR (default 1%Z (format_preferences !! default ""%string (content_format p)) * 2).

(** A post of the heap after some writes of [final_score]: it is the post it
    was, or that post with a score. *)
Definition scored_from (p p' : post) : Prop :=
  p' = p \/ exists s, p' = set_final_score s p.

Definition occurrences (a : string) (xs : list string) : nat :=
  length (filter (fun b => b = a) xs).

(** The author of a post that has one (the empty name stands for none). *)
Definition author_of (h : heap) (l : loc) : string := default ""%string (author (h l)).

Definition has_author (h : heap) (l : loc) : Prop := is_Some (author (h l)).

Definition followed (user_follows : gset string) (p : post) : Prop :=
  match author p with
  | Some a => a ∈ user_follows
  | None => False
  end.

#[global] Instance followed_dec (user_follows : gset string) (p : post) :
  Decision (followed user_follows p).
Proof. unfold followed. destruct (author p); apply _. Defined.

#[global] Instance pynum_eq_dec : EqDecision pynum.
Proof. solve_decision. Defined.

#[global] Instance pyerr_eq_dec : EqDecision pyerr.
Proof. solve_decision. Defined.

#[global] Instance result_eq_dec {A : Type} `{EqDecision A} : EqDecision (result A).
Proof. solve_decision. Defined.

(** [a >= b] on scores: both are floats and [a] is not below [b]. *)
Definition py_ge (a b : pynum) : Prop :=
  match a, b with
  | PyFloat x, PyFloat y => y <= x
  | _, _ => False
  end.

Definition key_ge {A : Type} (a b : pynum * A) : Prop := py_ge a.1 b.1.

(** The posts the call keeps, the count it makes and the sort key. *)
Definition relevant (user_follows : gset string) (h : heap) (posts : list loc) : list loc :=
  filter (fun l => followed user_follows (h l)) posts.

Definition author_frequency (h : heap) (posts : list loc) : gmap string Z :=
  Counter (map (author_of h) posts).

Definition final_key (h : heap) (l : loc) : result pynum :=
  getitem "final_score" (final_score (h l)).

(** No kept post is later than a clock reading of the call. *)
Definition not_future (clock : nat -> R) (h : heap) (ls : list loc) : Prop :=
  forall l ts k, l ∈ ls -> timestamp (h l) = Some ts -> (k < length ls)%nat -> ts <= clock k.

Definition empty_post : post :=
  mkPost None None None None None None None None None None.

Definition example_post (a : string) (l r c q : Z) (hs : list string) (f : string)
    (e : Z) (ts : R) : post :=
  mkPost (Some a) (Some l) (Some r) (Some c) (Some q) (Some hs) (Some f) (Some e)
         (Some ts) None.

(** The four posts of the example usage, built at time [now]. *)
Definition example_heap (now : R) : heap := fun l =>
  match l with
  | 0%nat => example_post "user1" 10 5 2 3 ["#AI"; "#Bluesky"]%string "text" 2 (now - 7200)
  | 1%nat => example_post "user1" 5 2 1 0 ["#Design"]%string "image" 1 (now - 3600)
  | 2%nat => example_post "user2" 20 3 10 1 ["#Tech"; "#AI"]%string "video" 5 (now - 1800)
  | 3%nat => example_post "user3" 15 7 5 2 ["#AI"; "#Future"]%string "text" 3 (now - 300)
  | _ => empty_post
  end.

Definition example_posts : list loc := [0; 1; 2; 3]%nat.
Definition example_follows : gset string := {[ "user1"; "user2"; "user3" ]}%string.
Definition example_history : gmap string Z :=
  <["user1"%string := 10%Z]> (<["user2"%string := 5%Z]> (<["user3"%string := 2%Z]> ∅)).
Definition example_trending : gset string := {[ "#AI"; "#Bluesky" ]}%string.
Definition example_formats : gmap string Z :=
  <["text"%string := 1%Z]> (<["image"%string := 2%Z]> (<["video"%string := 3%Z]> ∅)).

(** A clock that stands still at [now]. *)
Definition still (now : R) : nat -> R := fun _ => now.

(** The score as the specification writes it: the hours since the post are
    clamped at zero before the power. [count] is [author_frequency[author]]. *)
Definition spec_final_score (interaction_history : gmap string Z)
    (trending_hashtags : gset string) (format_preferences : gmap string Z)
    (count : Z) (now : R) (p : post) : R :=
  bundle interaction_history trending_hashtags format_preferences p
  * (1 / (1 + rpow (Rmax 0 ((now - default 0 (timestamp p)) / 3600)) 1.2))
  * Rmax (1 - IZR count * 0.02) 0.9.

Definition scenario_post (now : R) : post :=
  example_post "user1" 10 5 2 3 ["#AI"; "#Bluesky"]%string "text" 2 (now - 7200).

Definition scenario_heap (now : R) : heap := fun l =>
  match l with
  | 0%nat => scenario_post now
  | _ => empty_post
  end.

Definition scenario_follows : gset string := {[ "user1"%string ]}.
Definition scenario_history : gmap string Z := <["user1"%string := 10%Z]> ∅.
Definition scenario_formats : gmap string Z := <["text"%string := 1%Z]> ∅.

(** One post by [user1], stamped one hour after the clock of the call. *)
Definition future_heap : heap := fun l =>
  match l with
  | 0%nat => example_post "user1" 10 5 2 3 ["#AI"; "#Bluesky"]%string "text" 2 3600
  | _ => empty_post
  end.

(** Two posts by [user1]: the first stamped one hour after the clock of the
    call, the second at that clock. *)
Definition future_pair_heap : heap := fun l =>
  match l with
  | 0%nat => example_post "user1" 10 5 2 3 ["#AI"; "#Bluesky"]%string "text" 2 3600
  | 1%nat => example_post "user1" 5 2 1 0 ["#Design"]%string "image" 1 0
  | _ => empty_post
  end.

(** A post by [user1] that has every key but [engaged_by_followers]. *)
Definition unengaged_heap : heap := fun l =>
  match l with
  | 0%nat => mkPost (Some "user1"%string) (Some 10%Z) (Some 5%Z) (Some 2%Z) (Some 3%Z)
               (Some ["#AI"; "#Bluesky"]%string) (Some "text"%string) None (Some 0) None
  | _ => empty_post
  end.

(** The post [p] with another [timestamp], all else equal. *)
Definition with_timestamp (t : R) (p : post) : post :=
  mkPost (author p) (likes p) (reposts p) (comments p) (quotes p) (hashtags p)
         (content_format p) (engaged_by_followers p) (Some t) (final_score p).

(** A plain text post without engagement, for a viewer whose weight for
    text is negative. *)
Definition plain_post (t : R) : post :=
  example_post "user1" 0 0 0 0 [] "text" 0 t.

Definition disliked_text : gmap string Z := <["text"%string := (-1)%Z]> ∅.

(** A followed post without [likes]. *)
Definition unliked_heap : heap := fun l =>
  match l with
  | 0%nat => mkPost (Some "user1"%string) None (Some 5%Z) (Some 2%Z) (Some 3%Z)
               (Some ["#AI"; "#Bluesky"]%string) (Some "text"%string) (Some 2%Z)
               (Some 0) None
  | _ => empty_post
  end.

(** ** Notions for the further properties of the code *)

(** The keys [score] reads with [post[...]], in the order it reads them. *)
Definition required_keys : list string :=
  ["likes"; "reposts"; "comments"; "quotes"; "hashtags"; "author"; "content_format";
   "timestamp"]%string.

Definition absent {A : Type} (key : string) (field : option A) : option string :=
  match field with
  | Some _ => None
  | None => Some key
  end.

(** The first key of [required_keys] that the post does not have. *)
Definition first_missing (p : post) : option string :=
  match absent "likes" (likes p) with Some k => Some k | None =>
  match absent "reposts" (reposts p) with Some k => Some k | None =>
  match absent "comments" (comments p) with Some k => Some k | None =>
  match absent "quotes" (quotes p) with Some k => Some k | None =>
  match absent "hashtags" (hashtags p) with Some k => Some k | None =>
  match absent "author" (author p) with Some k => Some k | None =>
  match absent "content_format" (content_format p) with Some k => Some k | None =>
  absent "timestamp" (timestamp p)
  end end end end end end end.

(** The post [p] with other hashtags, all else equal. *)
Definition with_hashtags (hs : list string) (p : post) : post :=
  mkPost (author p) (likes p) (reposts p) (comments p) (quotes p) (Some hs)
         (content_format p) (engaged_by_followers p) (timestamp p) (final_score p).

(** The post [p] without its [final_score], all else equal. *)
Definition clear_final_score (p : post) : post :=
  mkPost (author p) (likes p) (reposts p) (comments p) (quotes p) (hashtags p)
         (content_format p) (engaged_by_followers p) (timestamp p) None.

(** The post [p] after more engagement: every count it has grows by the
    given amount, all else equal. *)
Definition add_engagement (dl dr dc dq de : Z) (p : post) : post :=
  mkPost (author p)
         ((fun x => x + dl)%Z <$> likes p) ((fun x => x + dr)%Z <$> reposts p)
         ((fun x => x + dc)%Z <$> comments p) ((fun x => x + dq)%Z <$> quotes p)
         (hashtags p) (content_format p)
         ((fun x => x + de)%Z <$> engaged_by_followers p)
         (timestamp p) (final_score p).

(** Two posts by [user1] at the clock of the call: the first complete, the
    second without [comments]. *)
Definition half_scored_heap : heap := fun l =>
  match l with
  | 0%nat => example_post "user1" 10 5 2 3 ["#AI"; "#Bluesky"]%string "text" 2 0
  | 1%nat => mkPost (Some "user1"%string) (Some 5%Z) (Some 2%Z) None (Some 0%Z)
               (Some ["#Design"]%string) (Some "image"%string) (Some 1%Z) (Some 0) None
  | _ => empty_post
  end.

(** A post by [user1] and a post by [user2], who is not followed in the
    scenario. *)
Definition mixed_heap : heap := fun l =>
  match l with
  | 0%nat => example_post "user1" 10 5 2 3 ["#AI"; "#Bluesky"]%string "text" 2 0
  | 1%nat => example_post "user2" 20 3 10 1 ["#Tech"; "#AI"]%string "video" 5 0
  | _ => empty_post
  end.

(** The scenario post with a [final_score] left by an earlier ranking. *)
Definition stale_heap : heap := fun l =>
  match l with
  | 0%nat => set_final_score (PyFloat 99) (scenario_post 0)
  | _ => empty_post
  end.

(** A clock that advances one second at every reading. *)
Definition ticking : nat -> R := fun k => INR k.

#[global] Instance is_float_dec (a : pynum) : Decision (is_float a).
Proof. destruct a; simpl; apply _. Defined.

(** * Properties *)

(** ** The exception monad *)

Lemma bind_Ok {A B : Type} (m : result A) (f : A -> result B) (b : B) :
  (m ≫= f) = Ok b -> exists a, m = Ok a /\ f a = Ok b.
Proof. destruct m as [a|e]; simpl; [eauto | discriminate]. Qed.

Lemma bind_Raise {A B : Type} (m : result A) (f : A -> result B) (e : pyerr) :
  (m ≫= f) = Raise e -> m = Raise e \/ exists a, m = Ok a /\ f a = Raise e.
Proof. destruct m as [a|e']; simpl; [eauto | intros [= ->]; auto]. Qed.

Ltac inv_bind H :=
  repeat match type of H with
  | (_ ≫= _) = Ok _ =>
      let a := fresh "a" in let Ha := fresh "Ha" in
      apply bind_Ok in H; destruct H as (a & Ha & H)
  | mret _ = Ok _ => injection H as H
  | Ok _ = Ok _ => injection H as H
  end.

Lemma getitem_Ok {A : Type} (key : string) (o : option A) (v : A) :
  getitem key o = Ok v <-> o = Some v.
Proof. destruct o; simpl; split; congruence. Qed.

Lemma getitem_Raise {A : Type} (key : string) (o : option A) (e : pyerr) :
  getitem key o = Raise e -> o = None /\ e = KeyError key.
Proof. destruct o; simpl; [discriminate | intros [= <-]; auto]. Qed.

(** ** Numbers *)

Lemma float_pow_nonneg (x y : R) : 0 <= x -> float_pow x y = PyFloat (rpow x y).
Proof.
  intros Hx. unfold float_pow, rpow.
  destruct (decide (0 < x)) as [Hp|Hn].
  - destruct (decide (x = 0)); [lra | reflexivity].
  - destruct (decide (x = 0)); [reflexivity | lra].
Qed.

Lemma rpow_nonneg (x y : R) : 0 <= rpow x y.
Proof.
  unfold rpow. destruct (decide (x = 0)); [lra|].
  unfold Rpower. left. apply exp_pos.
Qed.

Lemma sin_1_2_PI : sin (1.2 * PI) < 0.
Proof.
  pose proof PI_RGT_0 as Hpi.
  apply sin_lt_0; lra.
Qed.

Lemma float_pow_neg (x : R) :
  x < 0 -> exists re im, float_pow x 1.2 = PyComplex re im /\ im < 0.
Proof.
  intros Hx. unfold float_pow.
  destruct (decide (0 < x)); [lra|].
  destruct (decide (x = 0)); [lra|].
  eexists _, _. split; [reflexivity|].
  assert (0 < Rpower (- x) 1.2) by (unfold Rpower; apply exp_pos).
  pose proof sin_1_2_PI. nra.
Qed.

Lemma py_lt_Ok (a b : pynum) (c : bool) :
  py_lt a b = Ok c ->
  exists x y, a = PyFloat x /\ b = PyFloat y /\ c = bool_decide (x < y).
Proof. destruct a, b; simpl; try discriminate. intros [= <-]. eauto. Qed.

Lemma py_lt_Raise (a b : pynum) (e : pyerr) : py_lt a b = Raise e -> e = TypeError.
Proof. destruct a, b; simpl; congruence. Qed.

(** ** The score of one post *)

Section ScoreFacts.

Variable interaction_history : gmap string Z.
Variable trending_hashtags : gset string.
Variable format_preferences : gmap string Z.

Local Abbreviation score' := (score interaction_history trending_hashtags format_preferences).

Lemma time_decay_past (now ts : R) (p : post) :
  timestamp p = Some ts -> ts <= now ->
  time_decay now p = Ok (PyFloat (1 / (1 + rpow ((now - ts) / 3600) 1.2))).
Proof.
  intros Hts Hle. unfold time_decay. rewrite Hts. simpl.
  rewrite float_pow_nonneg by lra. simpl.
  pose proof (rpow_nonneg ((now - ts) / 3600) 1.2).
  destruct (decide (1 + rpow ((now - ts) / 3600) 1.2 = 0)); [lra | reflexivity].
Qed.

Lemma time_decay_future (now ts : R) (p : post) :
  timestamp p = Some ts -> now < ts ->
  exists re im, time_decay now p = Ok (PyComplex re im).
Proof.
  intros Hts Hlt. unfold time_decay. rewrite Hts. simpl.
  destruct (float_pow_neg ((now - ts) / 3600)) as (re & im & -> & Him); [lra|].
  simpl. destruct (decide (1 + re = 0 /\ 0 + im = 0)) as [[_ H0]|_]; [lra|].
  eauto.
Qed.

Lemma time_decay_total (now ts : R) (p : post) :
  timestamp p = Some ts -> exists d, time_decay now p = Ok d.
Proof.
  intros Hts. destruct (Rle_lt_dec ts now) as [H|H].
  - eexists. apply time_decay_past; eauto.
  - destruct (time_decay_future now ts p Hts H) as (re & im & ->). eauto.
Qed.

(** On a complete post the score is the bundle times the decay times the
    penalty. *)
Lemma score_complete (freq : gmap string Z) (now : R) (p : post) :
  complete p ->
  exists a d,
    author p = Some a /\ time_decay now p = Ok d /\
    score' freq now p =
      Ok (py_mul (py_mul (PyFloat (bundle interaction_history trending_hashtags format_preferences p)) d)
            (PyFloat (Rmax (1 - IZR (default 0%Z (freq !! a)) * 0.02) 0.9))).
Proof.
  intros ([a Ha] & [l Hl] & [r Hr] & [c Hc] & [q Hq] & [hs Hhs] & [f Hf] & [ts Hts]).
  destruct (time_decay_total now ts p Hts) as [d Hd].
  exists a, d. split; [assumption|]. split; [assumption|].
  unfold score, engagement_score, hashtag_bonus, interaction_bonus,
    content_format_bonus, diversity_penalty, virality_bonus, bundle.
  rewrite Hd, Ha, Hl, Hr, Hc, Hq, Hhs, Hf. simpl. reflexivity.
Qed.

Lemma score_Ok_complete (freq : gmap string Z) (now : R) (p : post) (v : pynum) :
  score' freq now p = Ok v -> complete p.
Proof.
  unfold score, engagement_score, hashtag_bonus, interaction_bonus,
    content_format_bonus, diversity_penalty, time_decay, complete.
  intros H.
  destruct (likes p), (reposts p), (comments p), (quotes p), (hashtags p),
    (author p), (content_format p), (timestamp p);
    simpl in H; try discriminate; repeat split; eauto.
Qed.

Lemma score_Raise (freq : gmap string Z) (now : R) (p : post) (e : pyerr) :
  score' freq now p = Raise e -> ~ complete p /\ exists key, e = KeyError key.
Proof.
  intros H. split.
  - intros Hc. destruct (score_complete freq now p Hc) as (a & d & _ & _ & Hs).
    congruence.
  - destruct (timestamp p) as [ts|] eqn:Hts.
    + destruct (time_decay_total now ts p Hts) as [d Hd].
      unfold score, engagement_score, hashtag_bonus, interaction_bonus,
        content_format_bonus, diversity_penalty in H.
      rewrite Hd in H.
      destruct (likes p), (reposts p), (comments p), (quotes p), (hashtags p),
        (author p), (content_format p); simpl in H; inversion H; eauto.
    + unfold score, engagement_score, hashtag_bonus, interaction_bonus,
        content_format_bonus, diversity_penalty, time_decay in H.
      rewrite Hts in H.
      destruct (likes p), (reposts p), (comments p), (quotes p), (hashtags p),
        (author p), (content_format p); simpl in H; inversion H; eauto.
Qed.

Lemma complete_set_final_score (s : pynum) (p : post) :
  complete (set_final_score s p) <-> complete p.
Proof. reflexivity. Qed.

Lemma score_set_final_score (freq : gmap string Z) (now : R) (s : pynum) (p : post) :
  score' freq now (set_final_score s p) = score' freq now p.
Proof. reflexivity. Qed.

End ScoreFacts.

(** ** The heap and the scoring loop *)

Lemma store_eq (h : heap) (l : loc) (p : post) : store h l p l = p.
Proof. unfold store. rewrite Nat.eqb_refl. reflexivity. Qed.

Lemma store_ne (h : heap) (l l' : loc) (p : post) : l' <> l -> store h l p l' = h l'.
Proof. intros Hne. unfold store. apply Nat.eqb_neq in Hne. rewrite Hne. reflexivity. Qed.

Section LoopFacts.

Variable interaction_history : gmap string Z.
Variable trending_hashtags : gset string.
Variable format_preferences : gmap string Z.
Variable clock : nat -> R.
Variable freq : gmap string Z.

Local Abbreviation score' := (score interaction_history trending_hashtags format_preferences freq).
Local Abbreviation loop := (score_posts interaction_history trending_hashtags format_preferences clock freq).

(** Whatever the outcome, the loop writes nothing but [final_score], and
    only into the posts of its list. *)
Lemma score_posts_frame (ls : list loc) (k : nat) (h h' : heap) (r : result unit) :
  loop k ls h = (r, h') ->
  (forall l, l ∉ ls -> h' l = h l) /\ (forall l, scored_from (h l) (h' l)).
Proof.
  revert k h. induction ls as [|l0 ls IH]; intros k h Hrun; simpl in Hrun.
  - injection Hrun as _ <-. split; [reflexivity | left; reflexivity].
  - destruct (score' (clock k) (h l0)) as [s|e] eqn:Hs.
    + apply IH in Hrun as [Hout Hall]. split.
      * intros l Hl. apply not_elem_of_cons in Hl as [Hne Hl].
        rewrite (Hout l Hl). apply store_ne, Hne.
      * intros l. specialize (Hall l). destruct (decide (l = l0)) as [->|Hne].
        -- rewrite store_eq in Hall. right.
           destruct Hall as [->|[s' ->]]; eexists; reflexivity.
        -- rewrite store_ne in Hall by assumption. exact Hall.
    + injection Hrun as _ <-. split; [reflexivity | left; reflexivity].
Qed.

(** A run that ends normally gave every post of the list the score computed
    at one of the clock readings of the run. *)
Lemma score_posts_Ok (ls : list loc) (k : nat) (h h' : heap) :
  loop k ls h = (Ok tt, h') ->
  forall l, l ∈ ls ->
    exists j s, ls !! j = Some l /\ score' (clock (k + j)) (h l) = Ok s /\
                h' l = set_final_score s (h l).
Proof.
  revert k h. induction ls as [|l0 ls IH]; intros k h Hrun l Hl; simpl in Hrun.
  - inversion Hl.
  - destruct (score' (clock k) (h l0)) as [s|e] eqn:Hs; [|discriminate].
    destruct (decide (l ∈ ls)) as [Hin|Hnin].
    + destruct (IH _ _ Hrun l Hin) as (j & s' & Hj & Hsc & Hh').
      exists (S j), s'. split; [exact Hj|].
      replace (k + S j)%nat with (S k + j)%nat by lia.
      destruct (decide (l = l0)) as [->|Hne].
      * rewrite store_eq in Hsc, Hh'. split; assumption.
      * rewrite store_ne in Hsc, Hh' by assumption. split; assumption.
    + apply elem_of_cons in Hl as [->|Hl]; [|contradiction].
      exists 0%nat, s. split; [reflexivity|].
      rewrite Nat.add_0_r. split; [exact Hs|].
      destruct (score_posts_frame _ _ _ _ _ Hrun) as [Hout _].
      rewrite (Hout l0 Hnin). apply store_eq.
Qed.

(** In a run that ends normally the score that stays in a post is the one
    of its last place in the list. *)
Lemma score_posts_Ok_last (ls : list loc) (k : nat) (h h' : heap) :
  loop k ls h = (Ok tt, h') ->
  forall l, l ∈ ls ->
    exists j s, ls !! j = Some l /\ (forall j', (j < j')%nat -> ls !! j' <> Some l) /\
                score' (clock (k + j)) (h l) = Ok s /\
                h' l = set_final_score s (h l).
Proof.
  revert k h. induction ls as [|l0 ls IH]; intros k h Hrun l Hl; simpl in Hrun.
  - inversion Hl.
  - destruct (score' (clock k) (h l0)) as [s|e] eqn:Hs; [|discriminate].
    destruct (decide (l ∈ ls)) as [Hin|Hnin].
    + destruct (IH _ _ Hrun l Hin) as (j & s' & Hj & Hlast & Hsc & Hh').
      exists (S j), s'. split; [exact Hj|]. split.
      { intros [|j'] Hlt; [lia|]. simpl. apply Hlast. lia. }
      replace (k + S j)%nat with (S k + j)%nat by lia.
      destruct (decide (l = l0)) as [->|Hne].
      * rewrite store_eq in Hsc, Hh'. split; assumption.
      * rewrite store_ne in Hsc, Hh' by assumption. split; assumption.
    + apply elem_of_cons in Hl as [->|Hl]; [|contradiction].
      exists 0%nat, s. split; [reflexivity|]. split.
      { intros [|j'] Hlt; [lia|]. simpl. intros Hj'.
        apply Hnin. eapply list_elem_of_lookup_2. exact Hj'. }
      rewrite Nat.add_0_r. split; [exact Hs|].
      destruct (score_posts_frame _ _ _ _ _ Hrun) as [Hout _].
      rewrite (Hout l0 Hnin). apply store_eq.
Qed.

(** The loop ends normally when every post of the list is complete. *)
Lemma score_posts_complete (ls : list loc) (k : nat) (h : heap) :
  (forall l, l ∈ ls -> complete (h l)) ->
  exists h', loop k ls h = (Ok tt, h').
Proof.
  revert k h. induction ls as [|l0 ls IH]; intros k h Hc; simpl.
  - eauto.
  - destruct (score_complete interaction_history trending_hashtags format_preferences
                freq (clock k) (h l0)) as (a & d & _ & _ & ->).
    { apply Hc. left. }
    apply IH. intros l Hl. destruct (decide (l = l0)) as [->|Hne].
    + rewrite store_eq. apply Hc. left.
    + rewrite store_ne by assumption. apply Hc. right. exact Hl.
Qed.

(** The loop raises [KeyError] when some post of the list is not complete. *)
Lemma score_posts_incomplete (ls : list loc) (k : nat) (h : heap) :
  (exists l, l ∈ ls /\ ~ complete (h l)) ->
  exists key h', loop k ls h = (Raise (KeyError key), h').
Proof.
  revert k h. induction ls as [|l0 ls IH]; intros k h (l & Hl & Hnc); simpl.
  - inversion Hl.
  - destruct (score' (clock k) (h l0)) as [s|e] eqn:Hs.
    + apply score_Ok_complete in Hs as Hc0.
      apply IH. exists l. apply elem_of_cons in Hl as [->|Hl]; [contradiction|].
      split; [exact Hl|].
      destruct (decide (l = l0)) as [->|Hne]; [contradiction|].
      rewrite store_ne by assumption. exact Hnc.
    + apply score_Raise in Hs as [_ [key ->]]. eauto.
Qed.

End LoopFacts.

(** ** [Counter] and the filter *)

Lemma Counter_fold (xs : list string) (m : gmap string Z) (a : string) :
  default 0%Z (fold_left (fun m a => <[a := (default 0 (m !! a) + 1)%Z]> m) xs m !! a)
  = (default 0 (m !! a) + Z.of_nat (occurrences a xs))%Z.
Proof.
  revert m. induction xs as [|b xs IH]; intros m; simpl.
  - unfold occurrences. simpl. lia.
  - rewrite IH. unfold occurrences. rewrite filter_cons.
    destruct (decide (b = a)) as [->|Hne].
    + rewrite lookup_insert_eq. simpl. lia.
    + rewrite lookup_insert_ne by assumption. lia.
Qed.

Lemma Counter_lookup (xs : list string) (a : string) :
  default 0%Z (Counter xs !! a) = Z.of_nat (occurrences a xs).
Proof. unfold Counter. rewrite Counter_fold, lookup_empty. simpl. lia. Qed.

Lemma authors_of_Ok (h : heap) (posts : list loc) (authors : list string) :
  authors_of h posts = Ok authors ->
  Forall (has_author h) posts /\ authors = map (author_of h) posts.
Proof.
  revert authors. induction posts as [|l ls IH]; intros authors H; simpl in H.
  - injection H as <-. split; [constructor | reflexivity].
  - inv_bind H. subst authors. apply getitem_Ok in Ha.
    destruct (IH _ Ha0) as [Hall ->]. split.
    + constructor; [|exact Hall]. unfold has_author. rewrite Ha. eauto.
    + simpl. f_equal. unfold author_of. rewrite Ha. reflexivity.
Qed.

Lemma authors_of_total (h : heap) (posts : list loc) :
  Forall (has_author h) posts -> authors_of h posts = Ok (map (author_of h) posts).
Proof.
  induction 1 as [|l ls [a Ha] _ IH]; simpl; [reflexivity|].
  rewrite Ha, IH. simpl. unfold mret, result_ret. do 2 f_equal.
  unfold author_of. rewrite Ha. reflexivity.
Qed.

Lemma authors_of_Raise (h : heap) (posts : list loc) (e : pyerr) :
  authors_of h posts = Raise e ->
  e = KeyError "author" /\ exists l, l ∈ posts /\ author (h l) = None.
Proof.
  induction posts as [|l ls IH]; simpl; [discriminate|].
  intros H. apply bind_Raise in H as [H|(a & Ha & H)].
  - apply getitem_Raise in H as [Hn ->]. split; [reflexivity|].
    exists l. split; [left | exact Hn].
  - apply bind_Raise in H as [H|(rest & Hr & H)]; [|discriminate].
    destruct (IH H) as [-> (l' & Hl' & Hn)]. split; [reflexivity|].
    exists l'. split; [right; exact Hl' | exact Hn].
Qed.

Lemma followed_posts_total (user_follows : gset string) (h : heap) (posts : list loc) :
  Forall (has_author h) posts ->
  followed_posts user_follows h posts
  = Ok (filter (fun l => followed user_follows (h l)) posts).
Proof.
  induction 1 as [|l ls [a Ha] _ IH]; simpl; [reflexivity|].
  rewrite Ha, IH. simpl. rewrite filter_cons. unfold mret, result_ret. f_equal.
  assert (followed user_follows (h l) <-> a ∈ user_follows) as Hiff
    by (unfold followed; rewrite Ha; reflexivity).
  destruct (decide (a ∈ user_follows)), (decide (followed user_follows (h l)));
    solve [reflexivity | tauto].
Qed.

Lemma occurrences_authors (h : heap) (posts : list loc) (a : string) :
  Forall (has_author h) posts ->
  occurrences a (map (author_of h) posts)
  = length (filter (fun l => author (h l) = Some a) posts).
Proof.
  unfold occurrences. induction 1 as [|l ls [b Hb] _ IH]; simpl; [reflexivity|].
  rewrite !filter_cons.
  assert (author_of h l = b) as Hl by (unfold author_of; rewrite Hb; reflexivity).
  destruct (decide (author_of h l = a)), (decide (author (h l) = Some a));
    simpl; congruence.
Qed.

(** ** [sorted] *)

Lemma py_ge_trans (a b c : pynum) : py_ge a b -> py_ge b c -> py_ge a c.
Proof. destruct a, b, c; simpl; try tauto. lra. Qed.

Section SortFacts.

Context {A : Type}.
Implicit Types (xs ys r : list (pynum * A)) (kx : pynum) (x : A).

Lemma insert_desc_perm kx x ys r : insert_desc kx x ys = Ok r -> r ≡ₚ (kx, x) :: ys.
Proof.
  revert r. induction ys as [|[ky y] ys IH]; intros r H; simpl in H.
  - injection H as <-. reflexivity.
  - apply bind_Ok in H as (b & Hb & H). destruct b.
    + apply bind_Ok in H as (r' & Hr' & H). injection H as <-.
      rewrite (IH _ Hr'). apply perm_swap.
    + injection H as <-. reflexivity.
Qed.

Lemma insert_desc_sorted kx x ys r :
  insert_desc kx x ys = Ok r ->
  StronglySorted key_ge ys -> StronglySorted key_ge r.
Proof.
  revert r. induction ys as [|[ky y] ys IH]; intros r H Hs; simpl in H.
  - injection H as <-. repeat constructor.
  - apply bind_Ok in H as (b & Hb & H).
    apply py_lt_Ok in Hb as (u & w & -> & -> & ->).
    apply StronglySorted_inv in Hs as [Hs Hall].
    destruct (bool_decide (u < w)) eqn:Hlt.
    + apply bind_Ok in H as (r' & Hr' & H). injection H as <-.
      apply bool_decide_eq_true in Hlt.
      constructor; [eapply IH; eassumption|].
      apply insert_desc_perm in Hr'. rewrite Hr'.
      constructor; [|exact Hall]. unfold key_ge. simpl. lra.
    + injection H as <-. apply bool_decide_eq_false in Hlt.
      assert (key_ge (PyFloat u, x) (PyFloat w, y)) as Hxy
        by (unfold key_ge; simpl; lra).
      constructor; [constructor; assumption|].
      constructor; [exact Hxy|].
      eapply Forall_impl; [exact Hall|]. intros z Hz.
      unfold key_ge in *. eapply py_ge_trans; eassumption.
Qed.

(** Stability of one insertion: [x] only passes keys different from its own. *)
Lemma insert_desc_stable kx x ys r (k : pynum) :
  insert_desc kx x ys = Ok r ->
  filter (fun a => a.1 = k) r = filter (fun a => a.1 = k) ((kx, x) :: ys).
Proof.
  revert r. induction ys as [|[ky y] ys IH]; intros r H; simpl in H.
  - injection H as <-. reflexivity.
  - apply bind_Ok in H as (b & Hb & H).
    apply py_lt_Ok in Hb as (u & w & -> & -> & ->).
    destruct (bool_decide (u < w)) eqn:Hlt.
    + apply bind_Ok in H as (r' & Hr' & H). injection H as <-.
      apply bool_decide_eq_true in Hlt.
      rewrite filter_cons, (IH _ Hr'), !filter_cons. simpl.
      destruct (decide (PyFloat w = k)) as [<-|Hw]; [|reflexivity].
      destruct (decide (PyFloat u = PyFloat w)) as [[= Huw]|Hu]; [lra | reflexivity].
    + injection H as <-. reflexivity.
Qed.

Lemma sort_desc_perm xs r : sort_desc xs = Ok r -> r ≡ₚ xs.
Proof.
  revert r. induction xs as [|[kx x] xs IH]; intros r H; simpl in H.
  - injection H as <-. reflexivity.
  - apply bind_Ok in H as (r' & Hr' & H).
    apply insert_desc_perm in H. rewrite H, (IH _ Hr'). reflexivity.
Qed.

Lemma sort_desc_sorted xs r : sort_desc xs = Ok r -> StronglySorted key_ge r.
Proof.
  revert r. induction xs as [|[kx x] xs IH]; intros r H; simpl in H.
  - injection H as <-. constructor.
  - apply bind_Ok in H as (r' & Hr' & H).
    eapply insert_desc_sorted; [exact H | eauto].
Qed.

Lemma sort_desc_stable xs r (k : pynum) :
  sort_desc xs = Ok r ->
  filter (fun a => a.1 = k) r = filter (fun a => a.1 = k) xs.
Proof.
  revert r. induction xs as [|[kx x] xs IH]; intros r H; simpl in H.
  - injection H as <-. reflexivity.
  - apply bind_Ok in H as (r' & Hr' & H).
    rewrite (insert_desc_stable _ _ _ _ k H), !filter_cons, (IH _ Hr').
    reflexivity.
Qed.

(** The only exception of the sort is the [TypeError] of [<]. *)
Lemma insert_desc_Raise kx x ys e : insert_desc kx x ys = Raise e -> e = TypeError.
Proof.
  induction ys as [|[ky y] ys IH]; simpl; [discriminate|].
  intros H. apply bind_Raise in H as [H|(b & Hb & H)].
  - eapply py_lt_Raise; eassumption.
  - destruct b; [|discriminate].
    apply bind_Raise in H as [H|(r' & _ & H)]; [auto | discriminate].
Qed.

Lemma sort_desc_Raise xs e : sort_desc xs = Raise e -> e = TypeError.
Proof.
  induction xs as [|[kx x] xs IH]; simpl; [discriminate|].
  intros H. apply bind_Raise in H as [H|(r' & _ & H)]; [auto|].
  eapply insert_desc_Raise; eassumption.
Qed.

(** A sort of two or more elements has compared every key. *)
Lemma insert_desc_floats kx x ys r :
  insert_desc kx x ys = Ok r -> ys <> [] ->
  is_float kx /\ exists ky y ys', ys = (ky, y) :: ys' /\ is_float ky.
Proof.
  destruct ys as [|[ky y] ys']; [congruence|]. simpl. intros H _.
  apply bind_Ok in H as (b & Hb & _).
  apply py_lt_Ok in Hb as (u & w & -> & -> & _).
  split; [exact I|]. eexists _, _, _. split; [reflexivity | exact I].
Qed.

Lemma sort_desc_floats xs r :
  sort_desc xs = Ok r -> (2 <= length xs)%nat -> Forall (fun a => is_float a.1) xs.
Proof.
  revert r. induction xs as [|[kx x] xs IH]; intros r H Hlen; simpl in *; [lia|].
  apply bind_Ok in H as (r' & Hr' & H).
  assert (r' <> []) as Hne.
  { apply sort_desc_perm in Hr'. intros ->. apply Permutation_nil in Hr'.
    subst xs. simpl in Hlen. lia. }
  destruct (insert_desc_floats _ _ _ _ H Hne) as (Hkx & ky & y & ys' & -> & Hky).
  constructor; [exact Hkx|].
  destruct xs as [|a [|b xs]]; [simpl in Hlen; lia | | ].
  - apply sort_desc_perm in Hr'. symmetry in Hr'.
    apply Permutation_length_1_inv in Hr'.
    injection Hr' as <- _. repeat constructor. exact Hky.
  - eapply IH; [exact Hr' | simpl; lia].
Qed.

Lemma sort_desc_total xs :
  Forall (fun a => is_float a.1) xs -> exists r, sort_desc xs = Ok r.
Proof.
  induction 1 as [|[kx x] xs Hkx Hall [r Hr]]; simpl; [eauto|].
  rewrite Hr. simpl.
  assert (Forall (fun a => is_float a.1) r) as Hr'.
  { apply sort_desc_perm in Hr. rewrite Hr. exact Hall. }
  clear Hr Hall. simpl in Hkx. destruct kx as [u|]; [|contradiction].
  induction Hr' as [|[ky y] r Hky _ [r' IHr]]; simpl; [eauto|].
  simpl in Hky. destruct ky as [w|]; [|contradiction]. simpl.
  destruct (bool_decide (u < w)); [|eauto].
  rewrite IHr. simpl. eauto.
Qed.

End SortFacts.

Section KeyedFacts.

Context {A : Type}.
Variable key : A -> result pynum.

Lemma keyed_Ok (xs : list A) (ks : list (pynum * A)) :
  keyed key xs = Ok ks ->
  map snd ks = xs /\ Forall (fun a => key a.2 = Ok a.1) ks.
Proof.
  revert ks. induction xs as [|x xs IH]; intros ks H; simpl in H.
  - injection H as <-. split; [reflexivity | constructor].
  - apply bind_Ok in H as (k & Hk & H). apply bind_Ok in H as (rest & Hrest & H).
    injection H as <-. destruct (IH _ Hrest) as [Hmap Hall].
    split; [simpl; congruence | constructor; assumption].
Qed.

Lemma keyed_total (xs : list A) :
  Forall (fun x => exists k, key x = Ok k) xs -> exists ks, keyed key xs = Ok ks.
Proof.
  induction 1 as [|x xs [k Hk] _ [ks IH]]; simpl; [eauto|].
  rewrite Hk, IH. simpl. eauto.
Qed.

(** What a normal return of [sorted(xs, key=key, reverse=True)] is: a
    permutation of [xs], every key non-increasing along it, and the elements
    of any one key in their order in [xs]. *)
Lemma sorted_reverse_Ok (xs out : list A) :
  sorted_reverse key xs = Ok out ->
  out ≡ₚ xs /\
  StronglySorted (fun a b => exists ka kb, key a = Ok ka /\ key b = Ok kb /\ py_ge ka kb) out /\
  (forall k, filter (fun a => key a = Ok k) out = filter (fun a => key a = Ok k) xs) /\
  ((2 <= length xs)%nat -> Forall (fun a => exists u, key a = Ok (PyFloat u)) xs).
Proof.
  unfold sorted_reverse. intros H.
  apply bind_Ok in H as (ks & Hks & H). apply bind_Ok in H as (r & Hr & H).
  injection H as <-. destruct (keyed_Ok _ _ Hks) as [Hmap Hkeys].
  assert (Forall (fun a => key a.2 = Ok a.1) r) as Hrkeys.
  { apply sort_desc_perm in Hr as Hp. rewrite Hp. exact Hkeys. }
  assert (forall (l : list (pynum * A)) k, Forall (fun a => key a.2 = Ok a.1) l ->
            filter (fun a => key a = Ok k) (map snd l)
            = map snd (filter (fun a => a.1 = k) l)) as Hfilter.
  { intros l k. induction 1 as [|[ka a] l Ha _ IH]; [reflexivity|].
    simpl in Ha. cbn [map]. rewrite !filter_cons, IH. simpl.
    destruct (decide (key a = Ok k)), (decide (ka = k)); try reflexivity; congruence. }
  repeat split.
  - rewrite <- Hmap. apply Permutation_map, sort_desc_perm, Hr.
  - apply sort_desc_sorted in Hr. clear Hfilter.
    induction Hr as [|[ka a] r Hs IH Hall]; [constructor|].
    apply Forall_cons in Hrkeys as [Ha Hrkeys]. cbn [map].
    constructor; [apply IH; exact Hrkeys|].
    apply Forall_forall. intros b Hb. apply (list_elem_of_fmap snd) in Hb as ([kb b'] & -> & Hb).
    rewrite Forall_forall in Hall. rewrite Forall_forall in Hrkeys.
    exists ka, kb. split; [exact Ha|]. split; [exact (Hrkeys _ Hb) | exact (Hall _ Hb)].
  - intros k. rewrite <- Hmap, !Hfilter by assumption.
    f_equal. eapply sort_desc_stable; exact Hr.
  - intros Hlen. rewrite <- Hmap in Hlen. rewrite length_map in Hlen.
    pose proof (sort_desc_floats _ _ Hr Hlen) as Hfl. rewrite <- Hmap.
    apply Forall_forall. intros a Ha. apply (list_elem_of_fmap snd) in Ha as ([ka a'] & -> & Ha).
    rewrite Forall_forall in Hfl. rewrite Forall_forall in Hkeys.
    specialize (Hfl _ Ha). specialize (Hkeys _ Ha). simpl in *.
    destruct ka as [u|]; [eauto | contradiction].
Qed.

End KeyedFacts.

(** ** The whole call *)

Lemma elem_of_relevant (user_follows : gset string) (h : heap) (posts : list loc) (l : loc) :
  l ∈ relevant user_follows h posts <-> l ∈ posts /\ followed user_follows (h l).
Proof. unfold relevant. rewrite list_elem_of_filter. tauto. Qed.

Lemma followed_has_author (user_follows : gset string) (h : heap) (l : loc) :
  followed user_follows (h l) -> exists a, author (h l) = Some a /\ a ∈ user_follows.
Proof. unfold followed. destruct (author (h l)); [eauto | tauto]. Qed.

(** The count of the call, read at an author: the number of posts of the
    whole input list that are by this author. *)
Lemma author_frequency_lookup (h : heap) (posts : list loc) (a : string) :
  Forall (has_author h) posts ->
  default 0%Z (author_frequency h posts !! a)
  = Z.of_nat (length (filter (fun l => author (h l) = Some a) posts)).
Proof.
  intros Ha. unfold author_frequency.
  rewrite Counter_lookup, occurrences_authors by assumption. reflexivity.
Qed.

(** A complete post that is not in the future gets a float. *)
Lemma score_past
    (interaction_history : gmap string Z) (trending_hashtags : gset string)
    (format_preferences : gmap string Z) (freq : gmap string Z) (now ts : R) (p : post) :
  complete p -> timestamp p = Some ts -> ts <= now ->
  exists a,
    author p = Some a /\
    score interaction_history trending_hashtags format_preferences freq now p
    = Ok (PyFloat (bundle interaction_history trending_hashtags format_preferences p
                   * (1 / (1 + rpow ((now - ts) / 3600) 1.2))
                   * Rmax (1 - IZR (default 0%Z (freq !! a)) * 0.02) 0.9)).
Proof.
  intros Hc Hts Hle.
  destruct (score_complete interaction_history trending_hashtags format_preferences
              freq now p Hc) as (a & d & Ha & Hd & Hs).
  rewrite (time_decay_past now ts p Hts Hle) in Hd. injection Hd as <-.
  exists a. split; [exact Ha | exact Hs].
Qed.

(** A complete post that is in the future gets a complex number. *)
Lemma score_future
    (interaction_history : gmap string Z) (trending_hashtags : gset string)
    (format_preferences : gmap string Z) (freq : gmap string Z) (now ts : R) (p : post) :
  complete p -> timestamp p = Some ts -> now < ts ->
  exists re im,
    score interaction_history trending_hashtags format_preferences freq now p
    = Ok (PyComplex re im).
Proof.
  intros Hc Hts Hlt.
  destruct (score_complete interaction_history trending_hashtags format_preferences
              freq now p Hc) as (a & d & Ha & Hd & Hs).
  destruct (time_decay_future now ts p Hts Hlt) as (re & im & Hd').
  rewrite Hd' in Hd. injection Hd as <-. rewrite Hs. simpl. eauto.
Qed.

Section CallFacts.

Variable clock : nat -> R.
Variable h : heap.
Variable posts : list loc.
Variable user_follows : gset string.
Variable interaction_history : gmap string Z.
Variable trending_hashtags : gset string.
Variable format_preferences : gmap string Z.

Local Abbreviation call :=
  (generate_feed clock h posts user_follows interaction_history trending_hashtags
     format_preferences).
Local Abbreviation loop :=
  (score_posts interaction_history trending_hashtags format_preferences clock
     (author_frequency h posts) 0 (relevant user_follows h posts) h).
Local Abbreviation score' :=
  (score interaction_history trending_hashtags format_preferences
     (author_frequency h posts)).

Lemma generate_feed_unfold :
  Forall (has_author h) posts ->
  call = match loop with
         | (Raise e, h') => (Raise e, h')
         | (Ok _, h') => (sorted_reverse (final_key h') (relevant user_follows h posts), h')
         end.
Proof.
  intros Ha. unfold generate_feed.
  rewrite (authors_of_total _ _ Ha), (followed_posts_total _ _ _ Ha). reflexivity.
Qed.

Lemma generate_feed_no_author :
  ~ Forall (has_author h) posts -> call = (Raise (KeyError "author"), h).
Proof.
  intros Hn. unfold generate_feed.
  destruct (authors_of h posts) as [authors|e] eqn:Hau.
  - apply authors_of_Ok in Hau as [Hall _]. contradiction.
  - apply authors_of_Raise in Hau as [-> _]. reflexivity.
Qed.

(** A call that returns has run the loop to its end and sorted the kept
    posts. *)
Lemma generate_feed_Ok (out : list loc) (h' : heap) :
  call = (Ok out, h') ->
  Forall (has_author h) posts /\ loop = (Ok tt, h') /\
  sorted_reverse (final_key h') (relevant user_follows h posts) = Ok out.
Proof.
  intros Hrun.
  destruct (decide (Forall (has_author h) posts)) as [Ha|Hn].
  - rewrite (generate_feed_unfold Ha) in Hrun.
    destruct loop as [[[]|e] h1]; [|discriminate].
    injection Hrun as Hs <-. auto.
  - rewrite (generate_feed_no_author Hn) in Hrun. discriminate.
Qed.

(** The call returns on an input whose posts all have an author, whose kept
    posts are complete and none of them in the future. *)
Lemma generate_feed_total :
  Forall (has_author h) posts ->
  (forall l, l ∈ relevant user_follows h posts -> complete (h l)) ->
  not_future clock h (relevant user_follows h posts) ->
  exists out h', call = (Ok out, h').
Proof.
  intros Ha Hc Hnf. rewrite (generate_feed_unfold Ha).
  destruct (score_posts_complete interaction_history trending_hashtags
              format_preferences clock (author_frequency h posts)
              (relevant user_follows h posts) 0 h Hc) as [h' Hloop].
  rewrite Hloop.
  assert (Forall (fun l => exists u, final_key h' l = Ok (PyFloat u))
            (relevant user_follows h posts)) as Hkeys.
  { apply Forall_forall. intros l Hl.
    destruct (score_posts_Ok _ _ _ _ _ _ _ _ _ Hloop l Hl) as (j & s & Hj & Hs & Hh').
    destruct (Hc l Hl) as (_ & _ & _ & _ & _ & _ & _ & [ts Hts]).
    apply lookup_lt_Some in Hj.
    destruct (score_past interaction_history trending_hashtags format_preferences
                (author_frequency h posts) (clock (0 + j)) ts (h l)
                (Hc l Hl) Hts (Hnf l ts _ Hl Hts Hj)) as (a & _ & Hs').
    rewrite Hs' in Hs. injection Hs as <-.
    unfold final_key. rewrite Hh'. simpl. eauto. }
  unfold sorted_reverse.
  destruct (keyed_total (final_key h') (relevant user_follows h posts)) as [ks Hks].
  { eapply Forall_impl; [exact Hkeys|]. intros l [u Hu]. eauto. }
  rewrite Hks. simpl.
  destruct (keyed_Ok _ _ _ Hks) as [Hmap Hall].
  destruct (sort_desc_total ks) as [r Hr].
  { apply Forall_forall. intros [k l] Hkl.
    rewrite Forall_forall in Hall. rewrite Forall_forall in Hkeys.
    specialize (Hall _ Hkl). simpl in Hall.
    assert (l ∈ relevant user_follows h posts) as Hl.
    { rewrite <- Hmap. apply (list_elem_of_fmap_2 snd _ _ Hkl). }
    destruct (Hkeys l Hl) as [u Hu]. simpl. rewrite Hu in Hall.
    injection Hall as <-. exact I. }
  rewrite Hr. simpl. eauto.
Qed.

End CallFacts.

(** ** The example data of the source: the call returns *)

Lemma example_relevant (now : R) :
  relevant example_follows (example_heap now) example_posts = example_posts.
Proof. reflexivity. Qed.

Lemma example_has_author (now : R) : Forall (has_author (example_heap now)) example_posts.
Proof. repeat constructor; unfold has_author; simpl; eauto. Qed.

Lemma example_complete (now : R) (l : loc) :
  l ∈ example_posts -> complete (example_heap now l).
Proof.
  intros Hl. unfold example_posts in Hl.
  repeat (apply elem_of_cons in Hl as [->|Hl]; [unfold complete; simpl; repeat split; eauto|]).
  inversion Hl.
Qed.

Lemma example_not_future (now : R) :
  not_future (still now) (example_heap now) example_posts.
Proof.
  intros l ts k Hl Hts _. unfold still, example_posts in *.
  repeat (apply elem_of_cons in Hl as [->|Hl]; [simpl in Hts; injection Hts as <-; lra|]).
  inversion Hl.
Qed.

Lemma example_returns (now : R) :
  exists out h',
    generate_feed (still now) (example_heap now) example_posts example_follows
      example_history example_trending example_formats = (Ok out, h').
Proof.
  apply generate_feed_total.
  - apply example_has_author.
  - rewrite example_relevant. apply example_complete.
  - rewrite example_relevant. apply example_not_future.
Qed.

(** ** Helper facts for the claims *)

Lemma filter_eq_followed (user_follows : gset string) (h : heap) (posts : list loc) (l : loc) :
  followed user_follows (h l) ->
  filter (fun x => x = l) (filter (fun x => followed user_follows (h x)) posts)
  = filter (fun x => x = l) posts.
Proof.
  intros Hf. induction posts as [|x xs IH]; [reflexivity|].
  rewrite (filter_cons _ x xs).
  destruct (decide (followed user_follows (h x))) as [Hx|Hx].
  - rewrite !filter_cons, IH. reflexivity.
  - rewrite IH, filter_cons. destruct (decide (x = l)) as [->|Hne]; [contradiction | reflexivity].
Qed.

Lemma StronglySorted_weaken {A : Type} (P Q : A -> A -> Prop) (l : list A) :
  (forall a b, P a b -> Q a b) -> StronglySorted P l -> StronglySorted Q l.
Proof.
  intros HPQ. induction 1 as [|a l _ IH Hall]; constructor; [exact IH|].
  eapply Forall_impl; [exact Hall | intros b; apply HPQ].
Qed.

Lemma final_key_Ok (h : heap) (l : loc) (s : pynum) :
  final_key h l = Ok s <-> final_score (h l) = Some s.
Proof. apply getitem_Ok. Qed.

Lemma filter_final_key (h : heap) (s : pynum) (ls : list loc) :
  filter (fun l => final_key h l = Ok s) ls
  = filter (fun l => final_score (h l) = Some s) ls.
Proof. apply list_filter_iff. intros l. apply final_key_Ok. Qed.

(** A call that keeps a single complete post returns it, scored at the
    first clock reading. *)
Lemma generate_feed_single (clock : nat -> R) (h : heap) (posts : list loc)
    (user_follows : gset string) (interaction_history : gmap string Z)
    (trending_hashtags : gset string) (format_preferences : gmap string Z) (l : loc) :
  Forall (has_author h) posts ->
  relevant user_follows h posts = [l] ->
  complete (h l) ->
  exists s,
    score interaction_history trending_hashtags format_preferences
      (author_frequency h posts) (clock 0%nat) (h l) = Ok s /\
    generate_feed clock h posts user_follows interaction_history trending_hashtags
      format_preferences
    = (Ok [l], store h l (set_final_score s (h l))).
Proof.
  intros Ha Hrel Hc.
  destruct (score_complete interaction_history trending_hashtags format_preferences
              (author_frequency h posts) (clock 0%nat) (h l) Hc) as (a & d & _ & _ & Hs).
  eexists. split; [exact Hs|].
  rewrite (generate_feed_unfold _ _ _ _ _ _ _ Ha), Hrel. simpl. rewrite Hs.
  unfold sorted_reverse, final_key. simpl. rewrite store_eq. reflexivity.
Qed.

(** * The claims *)

Section Claims.

Variable clock : nat -> R.
Variable h : heap.
Variable posts : list loc.
Variable user_follows : gset string.
Variable interaction_history : gmap string Z.
Variable trending_hashtags : gset string.
Variable format_preferences : gmap string Z.

Local Abbreviation call :=
  (generate_feed clock h posts user_follows interaction_history trending_hashtags
     format_preferences).

(** C1 (amended): a call that returns has given every kept post the score
    computed at the reading [now] of the clock made at the post's place among
    the kept posts (the last place, for an object listed more than once).
    When the post's timestamp is not later than [now] this score is
    [(likes*1.8 + reposts*1.4 + comments*3 + quotes*4.5 + engaged_by_followers*2
      + |hashtags ∩ trending_hashtags|*3 + interaction_history.get(author, 0)*2
      + format_preferences.get(content_format, 1)*2)
     * (1 / (1 + ((now - timestamp)/3600)^1.2))
     * max(1 - author_frequency[author]*0.02, 0.9)],
    which is there the same number as the formula with the hours clamped at
    zero; when the timestamp is later than [now] the score is a complex
    number. *)
Theorem C1_final_score_formula (out : list loc) (h' : heap) (l : loc) :
  call = (Ok out, h') ->
  l ∈ posts -> followed user_follows (h l) ->
  exists j a ts,
    relevant user_follows h posts !! j = Some l /\
    (forall j', (j < j')%nat -> relevant user_follows h posts !! j' <> Some l) /\
    author (h l) = Some a /\ timestamp (h l) = Some ts /\
    (ts <= clock j ->
     final_score (h' l)
     = Some (PyFloat (spec_final_score interaction_history trending_hashtags
                        format_preferences
                        (default 0%Z (author_frequency h posts !! a)) (clock j) (h l)))) /\
    (clock j < ts -> exists re im, final_score (h' l) = Some (PyComplex re im)).
Proof.
  intros Hrun Hl Hf.
  destruct (generate_feed_Ok _ _ _ _ _ _ _ _ _ Hrun) as (Ha & Hloop & _).
  assert (l ∈ relevant user_follows h posts) as Hrel by (apply elem_of_relevant; auto).
  destruct (score_posts_Ok_last _ _ _ _ _ _ _ _ _ Hloop l Hrel)
    as (j & s & Hj & Hlast & Hs & Hh').
  change (0 + j)%nat with j in Hs.
  pose proof (score_Ok_complete _ _ _ _ _ _ _ Hs) as Hc.
  destruct Hc as ([a Hau] & Hrest). destruct Hrest as (_ & _ & _ & _ & _ & _ & [ts Hts]).
  exists j, a, ts.
  split; [exact Hj|]. split; [exact Hlast|]. split; [exact Hau|]. split; [exact Hts|].
  split.
  - intros Hle.
    destruct (score_past interaction_history trending_hashtags format_preferences
                (author_frequency h posts) (clock j) ts (h l)) as (a' & Ha' & Hs');
      [eapply score_Ok_complete; exact Hs | exact Hts | exact Hle |].
    rewrite Hs' in Hs. injection Hs as <-. rewrite Hh'. simpl.
    assert (a' = a) as -> by congruence.
    unfold spec_final_score. rewrite Hts. simpl.
    rewrite (Rmax_right 0 ((clock j - ts) / 3600)) by lra. reflexivity.
  - intros Hlt.
    destruct (score_future interaction_history trending_hashtags format_preferences
                (author_frequency h posts) (clock j) ts (h l)) as (re & im & Hs');
      [eapply score_Ok_complete; exact Hs | exact Hts | exact Hlt |].
    rewrite Hs' in Hs. injection Hs as <-. rewrite Hh'. simpl. eauto.
Qed.

(** C2: the output of a call that returns is a permutation of the input
    posts whose author is followed: it holds none of the other posts, holds
    every followed post as often as the input does, holds nothing that is
    not an input post, and each of its posts has a [final_score]. *)
Theorem C2_output_permutation_of_followed (out : list loc) (h' : heap) :
  call = (Ok out, h') ->
  out ≡ₚ filter (fun l => followed user_follows (h l)) posts /\
  (forall l, l ∈ out -> l ∈ posts /\ followed user_follows (h l)) /\
  (forall l, ~ followed user_follows (h l) -> l ∉ out) /\
  (forall l, followed user_follows (h l) ->
     length (filter (fun x => x = l) out) = length (filter (fun x => x = l) posts)) /\
  (forall l, l ∈ out -> exists s, final_score (h' l) = Some s).
Proof.
  intros Hrun.
  destruct (generate_feed_Ok _ _ _ _ _ _ _ _ _ Hrun) as (Ha & Hloop & Hsort).
  destruct (sorted_reverse_Ok _ _ _ Hsort) as (Hperm & _).
  fold (relevant user_follows h posts).
  assert (forall l, l ∈ out <-> l ∈ posts /\ followed user_follows (h l)) as Hin.
  { intros l. rewrite Hperm. apply elem_of_relevant. }
  split; [exact Hperm|]. split; [intros l; apply Hin|].
  split; [intros l Hnf Hl; apply Hin in Hl; tauto|]. split.
  - intros l Hf. rewrite Hperm. unfold relevant.
    rewrite filter_eq_followed by assumption. reflexivity.
  - intros l Hl. rewrite Hperm in Hl.
    destruct (score_posts_Ok _ _ _ _ _ _ _ _ _ Hloop l Hl) as (j & s & _ & _ & Hh').
    exists s. rewrite Hh'. reflexivity.
Qed.

(** C4: the output of a call that returns is in descending order of
    [final_score], and posts of equal [final_score] stand in the order they
    have in the input. *)
Theorem C4_sorted_descending_stable (out : list loc) (h' : heap) :
  call = (Ok out, h') ->
  StronglySorted
    (fun a b => exists x y,
       final_score (h' a) = Some x /\ final_score (h' b) = Some y /\ py_ge x y) out /\
  (forall s,
     filter (fun l => final_score (h' l) = Some s) out
     = filter (fun l => final_score (h' l) = Some s)
         (filter (fun l => followed user_follows (h l)) posts)).
Proof.
  intros Hrun.
  destruct (generate_feed_Ok _ _ _ _ _ _ _ _ _ Hrun) as (_ & _ & Hsort).
  destruct (sorted_reverse_Ok _ _ _ Hsort) as (_ & Hsorted & Hstable & _).
  split.
  - eapply StronglySorted_weaken; [|exact Hsorted].
    intros a b (x & y & Hx & Hy & Hge). apply final_key_Ok in Hx, Hy. eauto.
  - intros s. fold (relevant user_follows h posts).
    rewrite <- !filter_final_key. apply Hstable.
Qed.

(** C5: in a call that returns, the penalty factor of every output post is
    [max(1 - n*0.02, 0.9)] where [n] is the number of posts by its author in
    the whole input list, which is what [author_frequency] holds. *)
Theorem C5_frequency_over_all_posts (out : list loc) (h' : heap) (l : loc) :
  call = (Ok out, h') -> l ∈ out ->
  exists a j d,
    let n := length (filter (fun l' => author (h l') = Some a) posts) in
    author (h l) = Some a /\
    default 0%Z (author_frequency h posts !! a) = Z.of_nat n /\
    time_decay (clock j) (h l) = Ok d /\
    final_score (h' l)
    = Some (py_mul
              (py_mul (PyFloat (bundle interaction_history trending_hashtags
                                  format_preferences (h l))) d)
              (PyFloat (Rmax (1 - IZR (Z.of_nat n) * 0.02) 0.9))).
Proof.
  intros Hrun Hl.
  destruct (generate_feed_Ok _ _ _ _ _ _ _ _ _ Hrun) as (Ha & Hloop & Hsort).
  destruct (sorted_reverse_Ok _ _ _ Hsort) as (Hperm & _).
  rewrite Hperm in Hl.
  destruct (score_posts_Ok _ _ _ _ _ _ _ _ _ Hloop l Hl) as (j & s & _ & Hs & Hh').
  destruct (score_complete interaction_history trending_hashtags format_preferences
              (author_frequency h posts) (clock (0 + j)) (h l)) as (a & d & Hau & Hd & Hs');
    [eapply score_Ok_complete; exact Hs|].
  exists a, (0 + j)%nat, d. cbv zeta.
  rewrite <- (author_frequency_lookup h posts a Ha).
  repeat split; try assumption.
  rewrite Hs' in Hs. injection Hs as <-. rewrite Hh'. reflexivity.
Qed.

(** C10: the call writes nothing but the [final_score] of kept posts: a
    post that is not a followed post of the input stays as it was whatever
    the outcome, and when the call returns, every followed input post is in
    the output and is the post it was with a [final_score] written. *)
Theorem C10_only_kept_posts_are_updated (r : result (list loc)) (h' : heap) :
  call = (r, h') ->
  (forall l, ~ (l ∈ posts /\ followed user_follows (h l)) -> h' l = h l) /\
  (forall out, r = Ok out ->
     forall l, l ∈ posts -> followed user_follows (h l) ->
       l ∈ out /\ exists s, h' l = set_final_score s (h l)).
Proof.
  intros Hrun. split.
  - intros l Hl.
    destruct (decide (Forall (has_author h) posts)) as [Ha|Hn].
    + rewrite (generate_feed_unfold _ _ _ _ _ _ _ Ha) in Hrun.
      destruct (score_posts _ _ _ _ _ _ _ _) as [r1 h1] eqn:Hloop.
      apply score_posts_frame in Hloop as [Hout _].
      assert (l ∉ relevant user_follows h posts) as Hnr
        by (rewrite elem_of_relevant; exact Hl).
      destruct r1 as [[]|e]; injection Hrun as _ <-; apply Hout, Hnr.
    + rewrite (generate_feed_no_author _ _ _ _ _ _ _ Hn) in Hrun.
      injection Hrun as _ <-. reflexivity.
  - intros out -> l Hl Hf.
    destruct (generate_feed_Ok _ _ _ _ _ _ _ _ _ Hrun) as (Ha & Hloop & Hsort).
    destruct (sorted_reverse_Ok _ _ _ Hsort) as (Hperm & _).
    assert (l ∈ relevant user_follows h posts) as Hrel by (apply elem_of_relevant; auto).
    split; [rewrite Hperm; exact Hrel|].
    destruct (score_posts_Ok _ _ _ _ _ _ _ _ _ Hloop l Hrel) as (j & s & _ & _ & Hh').
    eauto.
Qed.

End Claims.

(** ** The power [x ** 1.2] on non-negative reals *)

Lemma rpow_0 (y : R) : rpow 0 y = 0.
Proof. unfold rpow. destruct (decide (0 = 0)); [reflexivity | contradiction]. Qed.

Lemma rpow_1 (y : R) : rpow 1 y = 1.
Proof.
  unfold rpow. destruct (decide (1 = 0)); [lra|].
  unfold Rpower. rewrite ln_1, Rmult_0_r. apply exp_0.
Qed.

Lemma rpow_mono (a b y : R) : 0 <= y -> 0 <= a <= b -> rpow a y <= rpow b y.
Proof.
  intros Hy [Ha Hab]. unfold rpow at 1.
  destruct (decide (a = 0)); [apply rpow_nonneg|].
  unfold rpow. destruct (decide (b = 0)); [lra|].
  apply Rle_Rpower_l; lra.
Qed.

(** [x ** 1.2] is the fifth root of [x^6]. *)
Lemma rpow_fifth (x : R) : 0 < x -> rpow x 1.2 ^ 5 = x ^ 6.
Proof.
  intros Hx. unfold rpow. destruct (decide (x = 0)); [lra|].
  assert (0 < Rpower x 1.2) as Hp by (unfold Rpower; apply exp_pos).
  rewrite <- (Rpower_pow 5 _ Hp), Rpower_mult.
  replace (1.2 * INR 5) with (INR 6) by (simpl; lra).
  apply Rpower_pow, Hx.
Qed.

Lemma rpow_2_bounds : 2.2962 < rpow 2 1.2 < 2.2975.
Proof.
  pose proof (rpow_fifth 2 ltac:(lra)) as H5.
  pose proof (rpow_nonneg 2 1.2) as H0.
  set (x := rpow 2 1.2) in *.
  split.
  - apply Rnot_le_lt. intros Hle.
    pose proof (pow_incr x 2.2962 5 (conj H0 Hle)) as Hp. lra.
  - apply Rnot_le_lt. intros Hle.
    pose proof (pow_incr 2.2975 x 5 ltac:(lra)) as Hp. lra.
Qed.

(** ** The concrete scenario: one post by [user1], two hours old *)

Lemma scenario_engagement (now : R) : engagement_score (scenario_post now) = Ok 44.5.
Proof. unfold engagement_score. simpl. unfold mret, result_ret. f_equal. lra. Qed.

Lemma scenario_virality (now : R) : virality_bonus (scenario_post now) = 4%Z.
Proof. reflexivity. Qed.

Lemma scenario_hashtag (now : R) :
  hashtag_bonus example_trending (scenario_post now) = Ok 6%Z.
Proof. reflexivity. Qed.

Lemma scenario_interaction (now : R) :
  interaction_bonus scenario_history (scenario_post now) = Ok 20%Z.
Proof. reflexivity. Qed.

Lemma scenario_format (now : R) :
  content_format_bonus scenario_formats (scenario_post now) = Ok 2%Z.
Proof. reflexivity. Qed.

Lemma scenario_frequency (now : R) :
  author_frequency (scenario_heap now) [0%nat] !! "user1"%string = Some 1%Z.
Proof. reflexivity. Qed.

Lemma scenario_penalty (now : R) :
  diversity_penalty (scenario_post now) (author_frequency (scenario_heap now) [0%nat])
  = Ok 0.98.
Proof.
  unfold diversity_penalty. simpl getitem. simpl mbind.
  rewrite scenario_frequency. simpl default. unfold mret, result_ret. f_equal.
  rewrite Rmax_left by lra. lra.
Qed.

Lemma scenario_decay (now : R) :
  time_decay now (scenario_post now) = Ok (PyFloat (1 / (1 + rpow 2 1.2))).
Proof.
  rewrite (time_decay_past now (now - 7200)) by (reflexivity || lra).
  replace ((now - (now - 7200)) / 3600) with 2 by lra. reflexivity.
Qed.

Lemma scenario_score (now : R) :
  score scenario_history example_trending scenario_formats
    (author_frequency (scenario_heap now) [0%nat]) now (scenario_post now)
  = Ok (PyFloat (76.5 * (1 / (1 + rpow 2 1.2)) * 0.98)).
Proof.
  unfold score.
  rewrite scenario_engagement, scenario_virality, scenario_hashtag,
    scenario_interaction, scenario_format, scenario_decay, scenario_penalty.
  simpl. unfold mret, result_ret. do 3 f_equal. lra.
Qed.

Lemma scenario_run (now : R) :
  generate_feed (still now) (scenario_heap now) [0%nat] scenario_follows
    scenario_history example_trending scenario_formats
  = (Ok [0%nat],
     store (scenario_heap now) 0%nat
       (set_final_score (PyFloat (76.5 * (1 / (1 + rpow 2 1.2)) * 0.98))
          (scenario_post now))).
Proof.
  destruct (generate_feed_single (still now) (scenario_heap now) [0%nat] scenario_follows
              scenario_history example_trending scenario_formats 0%nat)
    as (s & Hs & Hrun).
  - repeat constructor. unfold has_author. simpl. eauto.
  - reflexivity.
  - unfold complete. simpl. repeat split; eauto.
  - unfold still in Hs. change (scenario_heap now 0%nat) with (scenario_post now) in Hs.
    rewrite scenario_score in Hs. injection Hs as <-. exact Hrun.
Qed.

Lemma scenario_value_bounds :
  22.735 < 76.5 * (1 / (1 + rpow 2 1.2)) * 0.98 < 22.745.
Proof.
  destruct rpow_2_bounds as [Hlo Hhi].
  set (x := rpow 2 1.2) in *.
  assert (1 / (1 + x) * (1 + x) = 1) as Hy by (field; lra).
  assert (0 < 1 / (1 + x)) as Hpos by (apply Rdiv_lt_0_compat; lra).
  set (y := 1 / (1 + x)) in *.
  split; nra.
Qed.

(** C3 (amended): on the scenario input the call returns the one post, and
    its [final_score] is [76.5 * 1/(1 + 2^1.2) * 0.98], about 22.74: the
    additive parts are 44.5, 4, 6, 20 and 2 as stated, and the penalty of
    an author who occurs once is [max(1 - 1*0.02, 0.9) = 0.98], not 1. *)
Theorem C3_scenario_final_score (now : R) :
  engagement_score (scenario_post now) = Ok 44.5 /\
  virality_bonus (scenario_post now) = 4%Z /\
  hashtag_bonus example_trending (scenario_post now) = Ok 6%Z /\
  interaction_bonus scenario_history (scenario_post now) = Ok 20%Z /\
  content_format_bonus scenario_formats (scenario_post now) = Ok 2%Z /\
  diversity_penalty (scenario_post now) (author_frequency (scenario_heap now) [0%nat])
  = Ok 0.98 /\
  exists v h',
    generate_feed (still now) (scenario_heap now) [0%nat] scenario_follows
      scenario_history example_trending scenario_formats = (Ok [0%nat], h') /\
    final_score (h' 0%nat) = Some (PyFloat v) /\
    v = 76.5 * (1 / (1 + rpow 2 1.2)) * 0.98 /\
    Rabs (v - 22.74) < 0.005.
Proof.
  split; [apply scenario_engagement|]. split; [apply scenario_virality|].
  split; [apply scenario_hashtag|]. split; [apply scenario_interaction|].
  split; [apply scenario_format|]. split; [apply scenario_penalty|].
  eexists _, _. split; [apply scenario_run|].
  rewrite store_eq. split; [reflexivity|]. split; [reflexivity|].
  pose proof scenario_value_bounds as [Hlo Hhi].
  apply Rabs_def1; lra.
Qed.

(** C3, as stated, fails: the score of the scenario is not 23.04 to two
    decimals. *)
Lemma C3_score_is_not_23_04 :
  exists v h',
    generate_feed (still 7200) (scenario_heap 7200) [0%nat] scenario_follows
      scenario_history example_trending scenario_formats = (Ok [0%nat], h') /\
    final_score (h' 0%nat) = Some (PyFloat v) /\
    ~ Rabs (v - 23.04) < 0.005.
Proof.
  eexists _, _. split; [apply scenario_run|].
  rewrite store_eq. split; [reflexivity|].
  pose proof scenario_value_bounds as [Hlo Hhi].
  intros Habs. apply Rabs_def2 in Habs. lra.
Qed.

(** ** Future timestamps *)

Lemma future_run :
  exists re im,
    generate_feed (still 0) future_heap [0%nat] scenario_follows scenario_history
      example_trending scenario_formats
    = (Ok [0%nat], store future_heap 0%nat (set_final_score (PyComplex re im) (future_heap 0%nat))).
Proof.
  destruct (generate_feed_single (still 0) future_heap [0%nat] scenario_follows
              scenario_history example_trending scenario_formats 0%nat)
    as (s & Hs & Hrun).
  - repeat constructor. unfold has_author. simpl. eauto.
  - reflexivity.
  - unfold complete. simpl. repeat split; eauto.
  - destruct (score_future scenario_history example_trending scenario_formats
                (author_frequency future_heap [0%nat]) (still 0 0%nat) 3600
                (future_heap 0%nat)) as (re & im & Hc).
    + unfold complete. simpl. repeat split; eauto.
    + reflexivity.
    + unfold still. lra.
    + rewrite Hc in Hs. injection Hs as <-. eauto.
Qed.

(** C1, as stated, fails on a future timestamp: the score written is a
    complex number, not the float of the clamped formula. *)
Lemma C1_clamped_formula_fails_in_future :
  exists out h',
    generate_feed (still 0) future_heap [0%nat] scenario_follows scenario_history
      example_trending scenario_formats = (Ok out, h') /\
    final_score (h' 0%nat)
    <> Some (PyFloat (spec_final_score scenario_history example_trending scenario_formats
                        (default 0%Z (author_frequency future_heap [0%nat] !! "user1"%string))
                        0 (future_heap 0%nat))).
Proof.
  destruct future_run as (re & im & Hrun).
  eexists _, _. split; [exact Hrun|].
  rewrite store_eq. simpl. discriminate.
Qed.

(** C6, as stated, fails: with a single kept post in the future nothing is
    raised and the call returns that post. *)
Lemma C6_future_post_alone_returns :
  fst (generate_feed (still 0) future_heap [0%nat] scenario_follows scenario_history
         example_trending scenario_formats) = Ok [0%nat].
Proof. destruct future_run as (re & im & ->). reflexivity. Qed.

Section FailureClaims.

Variable clock : nat -> R.
Variable h : heap.
Variable posts : list loc.
Variable user_follows : gset string.
Variable interaction_history : gmap string Z.
Variable trending_hashtags : gset string.
Variable format_preferences : gmap string Z.

(** C6 (amended): for a kept post stamped later than the clock readings of
    the call (all posts having an author and the kept ones being complete),
    [hours_since_post ** 1.2] raises nothing: the post gets a complex
    [final_score]. The call then returns that post when it is the only kept
    one, and raises [TypeError] in the sort when two or more are kept. *)
Theorem C6_future_timestamp_complex_score (l : loc) (ts : R) :
  Forall (has_author h) posts ->
  (forall l', l' ∈ relevant user_follows h posts -> complete (h l')) ->
  l ∈ posts -> followed user_follows (h l) ->
  timestamp (h l) = Some ts ->
  (forall k, (k < length (relevant user_follows h posts))%nat -> clock k < ts) ->
  exists h' re im,
    final_score (h' l) = Some (PyComplex re im) /\
    generate_feed clock h posts user_follows interaction_history trending_hashtags
      format_preferences
    = (if decide (length (relevant user_follows h posts) = 1%nat)
       then Ok [l] else Raise TypeError, h').
Proof.
  intros Ha Hc Hl Hf Hts Hfut.
  assert (l ∈ relevant user_follows h posts) as Hrel by (apply elem_of_relevant; auto).
  rewrite (generate_feed_unfold _ _ _ _ _ _ _ Ha).
  destruct (score_posts_complete interaction_history trending_hashtags
              format_preferences clock (author_frequency h posts)
              (relevant user_follows h posts) 0 h Hc) as [h' Hloop].
  rewrite Hloop.
  destruct (score_posts_Ok _ _ _ _ _ _ _ _ _ Hloop l Hrel) as (j & s & Hj & Hs & Hh').
  apply lookup_lt_Some in Hj.
  destruct (score_future interaction_history trending_hashtags format_preferences
              (author_frequency h posts) (clock (0 + j)) ts (h l) (Hc l Hrel) Hts
              (Hfut _ Hj)) as (re & im & Hs').
  rewrite Hs' in Hs. injection Hs as <-.
  assert (final_key h' l = Ok (PyComplex re im)) as Hkey
    by (unfold final_key; rewrite Hh'; reflexivity).
  exists h', re, im. split; [rewrite Hh'; reflexivity|]. f_equal.
  destruct (decide (length (relevant user_follows h posts) = 1%nat)) as [H1|H1].
  - destruct (relevant user_follows h posts) as [|l0 [|l1 ls]]; try discriminate.
    apply list_elem_of_singleton in Hrel as <-.
    unfold sorted_reverse. simpl. rewrite Hkey. reflexivity.
  - assert (2 <= length (relevant user_follows h posts))%nat as H2 by lia.
    destruct (sorted_reverse (final_key h') (relevant user_follows h posts))
      as [out|e] eqn:Hsort.
    + destruct (sorted_reverse_Ok _ _ _ Hsort) as (_ & _ & _ & Hfl).
      specialize (Hfl H2). rewrite Forall_forall in Hfl.
      destruct (Hfl l Hrel) as [u Hu]. congruence.
    + f_equal. unfold sorted_reverse in Hsort.
      destruct (keyed_total (final_key h') (relevant user_follows h posts)) as [ks Hks].
      { apply Forall_forall. intros l' Hl'.
        destruct (score_posts_Ok _ _ _ _ _ _ _ _ _ Hloop l' Hl') as (j' & s' & _ & _ & Hh'').
        exists s'. unfold final_key. rewrite Hh''. reflexivity. }
      rewrite Hks in Hsort. simpl in Hsort.
      apply bind_Raise in Hsort as [Hsort|(r & _ & Hsort)]; [|discriminate].
      eapply sort_desc_Raise; exact Hsort.
Qed.

(** C7 (amended): the call raises [KeyError], and so returns no list, when
    some input post has no [author], or some followed post lacks one of
    [likes], [reposts], [comments], [quotes], [hashtags], [content_format]
    and [timestamp]. A post without [engaged_by_followers] has virality
    bonus 0. *)
Theorem C7_missing_key_raises (l : loc) :
  l ∈ posts ->
  author (h l) = None \/
  (followed user_follows (h l) /\
   (likes (h l) = None \/ reposts (h l) = None \/ comments (h l) = None \/
    quotes (h l) = None \/ hashtags (h l) = None \/ content_format (h l) = None \/
    timestamp (h l) = None)) ->
  (exists key h',
     generate_feed clock h posts user_follows interaction_history trending_hashtags
       format_preferences = (Raise (KeyError key), h')) /\
  (forall p, engaged_by_followers p = None -> virality_bonus p = 0%Z).
Proof.
  intros Hl Hmiss. split; [|intros p Hp; unfold virality_bonus; rewrite Hp; reflexivity].
  destruct (decide (Forall (has_author h) posts)) as [Ha|Hn].
  - rewrite (generate_feed_unfold _ _ _ _ _ _ _ Ha).
    destruct Hmiss as [Hnone|[Hf Hmiss]].
    { rewrite Forall_forall in Ha. destruct (Ha l Hl) as [a Hsome]. congruence. }
    destruct (score_posts_incomplete interaction_history trending_hashtags
                format_preferences clock (author_frequency h posts)
                (relevant user_follows h posts) 0 h) as (key & h' & Hloop).
    + exists l. split; [apply elem_of_relevant; auto|].
      intros (_ & [? Hli] & [? Hre] & [? Hco] & [? Hqu] & [? Hha] & [? Hcf] & [? Hti]).
      intuition congruence.
    + rewrite Hloop. eauto.
  - rewrite (generate_feed_no_author _ _ _ _ _ _ _ Hn). eauto.
Qed.

(** C8 (amended): an empty [posts] gives an empty list, and so does an
    empty [user_follows] when every post has an [author]; the heap is left
    as it was. *)
Theorem C8_empty_inputs :
  generate_feed clock h [] user_follows interaction_history trending_hashtags
    format_preferences = (Ok [], h) /\
  (Forall (has_author h) posts ->
   generate_feed clock h posts ∅ interaction_history trending_hashtags
     format_preferences = (Ok [], h)).
Proof.
  split; [reflexivity|]. intros Ha.
  rewrite (generate_feed_unfold _ _ _ _ _ _ _ Ha).
  assert (relevant ∅ h posts = []) as ->; [|reflexivity].
  unfold relevant. clear Ha. induction posts as [|l ls IH]; [reflexivity|].
  rewrite filter_cons, IH.
  destruct (decide (followed ∅ (h l))) as [Hf|_]; [|reflexivity].
  apply followed_has_author in Hf as (a & _ & Hin). set_solver.
Qed.

End FailureClaims.

(** C8, as stated, fails: with an empty [user_follows] a post without
    [author] still raises [KeyError]. *)
Lemma C8_empty_follows_can_raise :
  generate_feed (still 0) (fun _ => empty_post) [0%nat] ∅ ∅ ∅ ∅
  = (Raise (KeyError "author"), fun _ => empty_post).
Proof. reflexivity. Qed.

(** C7, as stated, fails for [engaged_by_followers]: a kept post without it
    is scored and returned. *)
Lemma C7_missing_engaged_by_followers_returns :
  fst (generate_feed (still 7200) unengaged_heap [0%nat] scenario_follows
         scenario_history example_trending scenario_formats) = Ok [0%nat].
Proof.
  destruct (generate_feed_single (still 7200) unengaged_heap [0%nat] scenario_follows
              scenario_history example_trending scenario_formats 0%nat)
    as (s & _ & ->).
  - repeat constructor. unfold has_author. simpl. eauto.
  - reflexivity.
  - unfold complete. simpl. repeat split; eauto.
  - reflexivity.
Qed.

(** ** Recency *)

Lemma decay_antitone (now t_old t_new : R) :
  t_old <= t_new -> t_new <= now ->
  0 < 1 / (1 + rpow ((now - t_old) / 3600) 1.2)
  <= 1 / (1 + rpow ((now - t_new) / 3600) 1.2).
Proof.
  intros Hle Hnow.
  pose proof (rpow_nonneg ((now - t_new) / 3600) 1.2) as Hn.
  pose proof (rpow_mono ((now - t_new) / 3600) ((now - t_old) / 3600) 1.2) as Hm.
  assert (rpow ((now - t_new) / 3600) 1.2 <= rpow ((now - t_old) / 3600) 1.2) as Hr
    by (apply Hm; lra).
  split.
  - apply Rdiv_lt_0_compat; lra.
  - unfold Rdiv. rewrite !Rmult_1_l. apply Rinv_le_contravar; lra.
Qed.

(** C9 (amended): at one clock reading, of two complete posts that differ
    in the timestamp only, neither in the future, the more recent one gets a
    [final_score] at least as great, provided the additive part of the
    score is not negative. *)
Theorem C9_recent_post_scores_higher
    (interaction_history : gmap string Z) (trending_hashtags : gset string)
    (format_preferences : gmap string Z) (freq : gmap string Z)
    (now t_old t_new : R) (p : post) :
  complete p ->
  0 <= bundle interaction_history trending_hashtags format_preferences p ->
  t_old <= t_new -> t_new <= now ->
  exists x y,
    score interaction_history trending_hashtags format_preferences freq now
      (with_timestamp t_new p) = Ok (PyFloat x) /\
    score interaction_history trending_hashtags format_preferences freq now
      (with_timestamp t_old p) = Ok (PyFloat y) /\
    y <= x.
Proof.
  intros Hc Hb Hle Hnow.
  assert (forall t, complete (with_timestamp t p)) as Hct.
  { intros t. destruct Hc as (? & ? & ? & ? & ? & ? & ? & _).
    unfold complete. simpl. repeat split; eauto. }
  destruct (score_past interaction_history trending_hashtags format_preferences
              freq now t_new (with_timestamp t_new p) (Hct _) eq_refl Hnow)
    as (a & Ha & Hnew).
  destruct (score_past interaction_history trending_hashtags format_preferences
              freq now t_old (with_timestamp t_old p) (Hct _) eq_refl ltac:(lra))
    as (a' & Ha' & Hold).
  simpl in Ha, Ha'. assert (a' = a) as -> by congruence.
  eexists _, _. split; [exact Hnew|]. split; [exact Hold|].
  change (bundle interaction_history trending_hashtags format_preferences
            (with_timestamp t_new p))
    with (bundle interaction_history trending_hashtags format_preferences p).
  change (bundle interaction_history trending_hashtags format_preferences
            (with_timestamp t_old p))
    with (bundle interaction_history trending_hashtags format_preferences p).
  destruct (decay_antitone now t_old t_new Hle Hnow) as [Hpos Hdec].
  assert (0 < Rmax (1 - IZR (default 0%Z (freq !! a)) * 0.02) 0.9) as Hpen.
  { pose proof (Rmax_r (1 - IZR (default 0%Z (freq !! a)) * 0.02) 0.9). lra. }
  apply Rmult_le_compat_r; [lra|].
  apply Rmult_le_compat_l; assumption.
Qed.

Lemma plain_bundle_disliked (t : R) : bundle ∅ ∅ disliked_text (plain_post t) = -2.
Proof.
  change (bundle ∅ ∅ disliked_text (plain_post t))
    with (0 * 1.8 + 0 * 1.4 + 0 * 3 + 0 * 4.5 + IZR 0 + IZR 0 + IZR 0 + IZR (-2)).
  lra.
Qed.

(** C9, as stated, fails twice: with a negative additive part the more
    recent post scores lower, and a post in the future gets a complex score,
    which is not ordered. *)
Lemma C9_recent_post_can_score_lower :
  (exists x y,
     score ∅ ∅ disliked_text ∅ 3600 (plain_post 3600) = Ok (PyFloat x) /\
     score ∅ ∅ disliked_text ∅ 3600 (plain_post 0) = Ok (PyFloat y) /\
     x < y) /\
  (exists re im y,
     score ∅ ∅ scenario_formats ∅ 3600 (plain_post 7200) = Ok (PyComplex re im) /\
     score ∅ ∅ scenario_formats ∅ 3600 (plain_post 0) = Ok (PyFloat y)).
Proof.
  assert (forall t, complete (plain_post t)) as Hc
    by (intros t; unfold complete; simpl; repeat split; eauto).
  split.
  - destruct (score_past ∅ ∅ disliked_text ∅ 3600 3600 (plain_post 3600) (Hc _) eq_refl
                ltac:(lra)) as (a & _ & Hnew).
    destruct (score_past ∅ ∅ disliked_text ∅ 3600 0 (plain_post 0) (Hc _) eq_refl
                ltac:(lra)) as (a' & _ & Hold).
    eexists _, _. split; [exact Hnew|]. split; [exact Hold|].
    replace ((3600 - 3600) / 3600) with 0 by lra.
    replace ((3600 - 0) / 3600) with 1 by lra.
    rewrite rpow_0, rpow_1, !lookup_empty. simpl default.
    rewrite Rmax_left by lra.
    rewrite !plain_bundle_disliked. lra.
  - destruct (score_future ∅ ∅ scenario_formats ∅ 3600 7200 (plain_post 7200) (Hc _)
                eq_refl ltac:(lra)) as (re & im & Hnew).
    destruct (score_past ∅ ∅ scenario_formats ∅ 3600 0 (plain_post 0) (Hc _) eq_refl
                ltac:(lra)) as (a' & _ & Hold).
    eexists _, _, _. split; [exact Hnew | exact Hold].
Qed.

(** ** The claims at concrete inputs *)

Lemma example_followed (now : R) (l : loc) :
  l ∈ example_posts -> followed example_follows (example_heap now l).
Proof.
  intros Hl. unfold example_posts in Hl.
  repeat (apply elem_of_cons in Hl as [->|Hl];
          [unfold followed, example_follows; simpl; set_solver|]).
  inversion Hl.
Qed.

Lemma scenario_followed (now : R) : followed scenario_follows (scenario_heap now 0%nat).
Proof. unfold followed, scenario_follows. simpl. set_solver. Qed.

Lemma example_returns_ticking :
  exists out h',
    generate_feed (fun k => INR k) (example_heap 0) example_posts example_follows
      example_history example_trending example_formats = (Ok out, h').
Proof.
  apply generate_feed_total.
  - apply example_has_author.
  - rewrite example_relevant. apply example_complete.
  - rewrite example_relevant. intros l ts k Hl Hts _.
    pose proof (pos_INR k) as Hk. unfold example_posts in Hl.
    repeat (apply elem_of_cons in Hl as [->|Hl];
            [simpl in Hts; injection Hts as <-; lra|]).
    inversion Hl.
Qed.

Lemma C1_final_score_formula_witness :
  exists out h',
    generate_feed (fun k => INR k) (example_heap 0) example_posts example_follows
      example_history example_trending example_formats = (Ok out, h') /\
    final_score (h' 1%nat)
    = Some (PyFloat (spec_final_score example_history example_trending example_formats
                       (default 0%Z (author_frequency (example_heap 0) example_posts
                                       !! "user1"%string))
                       (INR 1) (example_heap 0 1%nat))).
Proof.
  destruct example_returns_ticking as (out & h' & Hrun).
  exists out, h'. split; [exact Hrun|].
  destruct (C1_final_score_formula _ _ _ _ _ _ _ out h' 1%nat Hrun)
    as (j & a & ts & Hj & _ & Hau & Hts & Hscore & _).
  - unfold example_posts. right. left.
  - apply example_followed. unfold example_posts. right. left.
  - rewrite example_relevant in Hj. unfold example_posts in Hj.
    simpl in Hau, Hts. injection Hau as <-. injection Hts as <-.
    destruct j as [|[|[|[|j]]]]; try discriminate.
    apply Hscore. simpl. lra.
Defined.

Lemma C2_output_permutation_of_followed_witness :
  exists out h',
    generate_feed (still 0) (example_heap 0) example_posts example_follows
      example_history example_trending example_formats = (Ok out, h') /\
    out ≡ₚ example_posts.
Proof.
  destruct (example_returns 0) as (out & h' & Hrun).
  exists out, h'. split; [exact Hrun|].
  exact (proj1 (C2_output_permutation_of_followed _ _ _ _ _ _ _ out h' Hrun)).
Defined.

Lemma C4_sorted_descending_stable_witness :
  exists out h',
    generate_feed (still 0) (example_heap 0) example_posts example_follows
      example_history example_trending example_formats = (Ok out, h') /\
    StronglySorted
      (fun a b => exists x y,
         final_score (h' a) = Some x /\ final_score (h' b) = Some y /\ py_ge x y) out.
Proof.
  destruct (example_returns 0) as (out & h' & Hrun).
  exists out, h'. split; [exact Hrun|].
  exact (proj1 (C4_sorted_descending_stable _ _ _ _ _ _ _ out h' Hrun)).
Defined.

Lemma C5_frequency_over_all_posts_witness :
  exists out h',
    generate_feed (still 0) (scenario_heap 0) [0%nat] scenario_follows
      scenario_history example_trending scenario_formats = (Ok out, h') /\
    exists a j d,
      author (scenario_heap 0 0%nat) = Some a /\
      default 0%Z (author_frequency (scenario_heap 0) [0%nat] !! a)
      = Z.of_nat (length (filter (fun l' => author (scenario_heap 0 l') = Some a) [0%nat])) /\
      time_decay (still 0 j) (scenario_heap 0 0%nat) = Ok d.
Proof.
  eexists _, _. split; [apply scenario_run|].
  destruct (C5_frequency_over_all_posts _ _ _ _ _ _ _ _ _ 0%nat (scenario_run 0))
    as (a & j & d & Ha & Hn & Hd & _).
  - left.
  - exists a, j, d. auto.
Defined.

Lemma C6_future_timestamp_complex_score_witness :
  (exists h' re im,
     final_score (h' 0%nat) = Some (PyComplex re im) /\
     generate_feed (still 0) future_heap [0%nat] scenario_follows scenario_history
       example_trending scenario_formats = (Ok [0%nat], h')) /\
  (exists h' re im,
     final_score (h' 0%nat) = Some (PyComplex re im) /\
     generate_feed (still 0) future_pair_heap [0%nat; 1%nat] scenario_follows
       scenario_history example_trending scenario_formats = (Raise TypeError, h')).
Proof.
  split.
  - apply (C6_future_timestamp_complex_score (still 0) future_heap [0%nat]
             scenario_follows scenario_history example_trending scenario_formats
             0%nat 3600).
    + repeat constructor. unfold has_author. simpl. eauto.
    + intros l' Hl'. apply list_elem_of_singleton in Hl' as ->.
      unfold complete. simpl. repeat split; eauto.
    + left.
    + unfold followed, scenario_follows. simpl. set_solver.
    + reflexivity.
    + intros k _. unfold still. lra.
  - apply (C6_future_timestamp_complex_score (still 0) future_pair_heap [0%nat; 1%nat]
             scenario_follows scenario_history example_trending scenario_formats
             0%nat 3600).
    + repeat constructor; unfold has_author; simpl; eauto.
    + intros l' Hl'. change (relevant scenario_follows future_pair_heap [0%nat; 1%nat])
        with [0%nat; 1%nat] in Hl'.
      apply elem_of_cons in Hl' as [->|Hl'];
        [|apply list_elem_of_singleton in Hl' as ->];
        unfold complete; simpl; repeat split; eauto.
    + left.
    + unfold followed, scenario_follows. simpl. set_solver.
    + reflexivity.
    + intros k _. unfold still. lra.
Defined.

Lemma C7_missing_key_raises_witness :
  exists key h',
    generate_feed (still 7200) unliked_heap [0%nat] scenario_follows scenario_history
      example_trending scenario_formats = (Raise (KeyError key), h').
Proof.
  apply (C7_missing_key_raises (still 7200) unliked_heap [0%nat] scenario_follows
           scenario_history example_trending scenario_formats 0%nat).
  - left.
  - right. split; [unfold followed, scenario_follows; simpl; set_solver|].
    left. reflexivity.
Defined.

Lemma C8_empty_inputs_witness :
  generate_feed (still 0) (example_heap 0) example_posts ∅ example_history
    example_trending example_formats = (Ok [], example_heap 0).
Proof.
  apply (C8_empty_inputs (still 0) (example_heap 0) example_posts example_follows
           example_history example_trending example_formats).
  apply example_has_author.
Defined.

Lemma plain_bundle_text (t : R) : bundle ∅ ∅ scenario_formats (plain_post t) = 2.
Proof.
  change (bundle ∅ ∅ scenario_formats (plain_post t))
    with (0 * 1.8 + 0 * 1.4 + 0 * 3 + 0 * 4.5 + IZR 0 + IZR 0 + IZR 0 + IZR 2).
  lra.
Qed.

Lemma C9_recent_post_scores_higher_witness :
  exists x y,
    score ∅ ∅ scenario_formats ∅ 3600 (with_timestamp 1800 (plain_post 0)) = Ok (PyFloat x) /\
    score ∅ ∅ scenario_formats ∅ 3600 (with_timestamp 0 (plain_post 0)) = Ok (PyFloat y) /\
    y <= x.
Proof.
  apply (C9_recent_post_scores_higher ∅ ∅ scenario_formats ∅ 3600 0 1800 (plain_post 0)).
  - unfold complete. simpl. repeat split; eauto.
  - rewrite plain_bundle_text. lra.
  - lra.
  - lra.
Defined.

Lemma C10_only_kept_posts_are_updated_witness :
  exists h',
    generate_feed (still 0) (scenario_heap 0) [0%nat] scenario_follows
      scenario_history example_trending scenario_formats = (Ok [0%nat], h') /\
    (forall l, l <> 0%nat -> h' l = scenario_heap 0 l) /\
    exists s, h' 0%nat = set_final_score s (scenario_heap 0 0%nat).
Proof.
  eexists. split; [apply scenario_run|].
  destruct (C10_only_kept_posts_are_updated _ _ _ _ _ _ _ _ _ (scenario_run 0))
    as [Hframe Hupd].
  split.
  - intros l Hl. apply Hframe. intros [Hin _].
    apply list_elem_of_singleton in Hin. contradiction.
  - destruct (Hupd [0%nat] eq_refl 0%nat) as [_ Hs]; [left | apply scenario_followed | exact Hs].
Defined.

(** * Further properties of the code *)

(** ** [time_decay] *)

Lemma rpow_eq_0 (x y : R) : rpow x y = 0 <-> x = 0.
Proof.
  unfold rpow. destruct (decide (x = 0)) as [->|Hne]; [tauto|].
  assert (0 < Rpower x y) by (unfold Rpower; apply exp_pos).
  split; [lra | contradiction].
Qed.

Lemma rpow_strict (a b y : R) : 0 < y -> 0 <= a < b -> rpow a y < rpow b y.
Proof.
  intros Hy [Ha Hab]. unfold rpow.
  destruct (decide (b = 0)); [lra|].
  destruct (decide (a = 0)).
  - unfold Rpower. apply exp_pos.
  - apply Rlt_Rpower_l; lra.
Qed.

(** X1: [time_decay] raises nothing but the [KeyError] of a post without
    [timestamp]; in particular the division never divides by zero. With a
    timestamp it returns a float when the post is not in the future and a
    complex number when it is. *)
Theorem time_decay_never_divides_by_zero (now : R) (p : post) :
  match timestamp p with
  | None => time_decay now p = Raise (KeyError "timestamp")
  | Some ts => exists d, time_decay now p = Ok d /\ (is_float d <-> ts <= now)
  end.
Proof.
  destruct (timestamp p) as [ts|] eqn:Hts.
  - destruct (Rle_lt_dec ts now) as [Hle|Hlt].
    + eexists. split; [apply time_decay_past; eassumption|]. simpl. tauto.
    + destruct (time_decay_future now ts p Hts Hlt) as (re & im & ->).
      eexists. split; [reflexivity|]. simpl. split; [tauto | lra].
  - unfold time_decay. rewrite Hts. reflexivity.
Qed.

(** X2: for a post that is not in the future the decay factor lies in
    (0, 1], and it is 1 only for a post stamped at the very reading of the
    clock. *)
Theorem time_decay_range (now ts : R) (p : post) :
  timestamp p = Some ts -> ts <= now ->
  exists d, time_decay now p = Ok (PyFloat d) /\ 0 < d <= 1 /\ (d = 1 <-> ts = now).
Proof.
  intros Hts Hle. eexists. split; [apply time_decay_past; eassumption|].
  pose proof (rpow_nonneg ((now - ts) / 3600) 1.2) as Hr.
  pose proof (rpow_eq_0 ((now - ts) / 3600) 1.2) as H0.
  set (x := rpow ((now - ts) / 3600) 1.2) in *.
  assert (1 / (1 + x) * (1 + x) = 1) as Hy by (field; lra).
  assert (0 < 1 / (1 + x)) as Hpos by (apply Rdiv_lt_0_compat; lra).
  set (y := 1 / (1 + x)) in *.
  split; [split; nra|]. split.
  - intros ->. assert (x = 0) as Hx by lra. apply H0 in Hx. lra.
  - intros ->. assert (x = 0) as Hx by (apply H0; lra). rewrite Hx in Hy. lra.
Qed.

Lemma time_decay_range_witness :
  exists d, time_decay 3600 (plain_post 0) = Ok (PyFloat d) /\ 0 < d <= 1 /\
            (d = 1 <-> 0 = 3600).
Proof.
  apply (time_decay_range 3600 0 (plain_post 0)).
  - reflexivity.
  - lra.
Defined.

(** X3: of two posts that differ in the timestamp only, neither in the
    future, the strictly more recent one has the strictly greater decay
    factor. *)
Theorem time_decay_strictly_decreasing (now t_old t_new : R) (p : post) :
  t_old < t_new -> t_new <= now ->
  exists d_old d_new,
    time_decay now (with_timestamp t_old p) = Ok (PyFloat d_old) /\
    time_decay now (with_timestamp t_new p) = Ok (PyFloat d_new) /\
    d_old < d_new.
Proof.
  intros Hlt Hnow. eexists _, _.
  split; [apply time_decay_past; [reflexivity | lra]|].
  split; [apply time_decay_past; [reflexivity | lra]|].
  pose proof (rpow_nonneg ((now - t_new) / 3600) 1.2) as Hn.
  pose proof (rpow_strict ((now - t_new) / 3600) ((now - t_old) / 3600) 1.2) as Hs.
  assert (rpow ((now - t_new) / 3600) 1.2 < rpow ((now - t_old) / 3600) 1.2) as Hr
    by (apply Hs; lra).
  unfold Rdiv. rewrite !Rmult_1_l. apply Rinv_lt_contravar; [|lra].
  apply Rmult_lt_0_compat; lra.
Qed.

Lemma time_decay_strictly_decreasing_witness :
  exists d_old d_new,
    time_decay 3600 (with_timestamp 0 (plain_post 0)) = Ok (PyFloat d_old) /\
    time_decay 3600 (with_timestamp 1800 (plain_post 0)) = Ok (PyFloat d_new) /\
    d_old < d_new.
Proof.
  apply (time_decay_strictly_decreasing 3600 0 1800 (plain_post 0)); lra.
Defined.

(** ** [diversity_penalty] *)

(** X4: the penalty factor never falls below 0.9 and never grows when the
    author's count grows; from a count of 5 on it is exactly 0.9, and for a
    count that is not negative it is at most 1. *)
Theorem diversity_penalty_floor_and_monotone (p : post) (a : string)
    (freq1 freq2 : gmap string Z) :
  author p = Some a ->
  (default 0 (freq1 !! a) <= default 0 (freq2 !! a))%Z ->
  exists x1 x2,
    diversity_penalty p freq1 = Ok x1 /\ diversity_penalty p freq2 = Ok x2 /\
    0.9 <= x2 <= x1 /\
    ((5 <= default 0 (freq1 !! a))%Z -> x1 = 0.9) /\
    ((0 <= default 0 (freq1 !! a))%Z -> x1 <= 1).
Proof.
  intros Ha Hle. unfold diversity_penalty. rewrite Ha. simpl.
  eexists _, _. split; [reflexivity|]. split; [reflexivity|].
  apply IZR_le in Hle.
  set (n1 := IZR (default 0%Z (freq1 !! a))) in *.
  set (n2 := IZR (default 0%Z (freq2 !! a))) in *.
  split; [|split].
  - split; [apply Rmax_r|].
    apply Rmax_lub; [|apply Rmax_r].
    eapply Rle_trans; [|apply Rmax_l]. lra.
  - intros H5. apply IZR_le in H5. fold n1 in H5. apply Rmax_right. lra.
  - intros H0. apply IZR_le in H0. fold n1 in H0. apply Rmax_lub; lra.
Qed.

Lemma diversity_penalty_floor_and_monotone_witness :
  exists x1 x2,
    diversity_penalty (scenario_post 0) (author_frequency (scenario_heap 0) [0%nat]) = Ok x1 /\
    diversity_penalty (scenario_post 0)
      (author_frequency (scenario_heap 0) [0%nat; 0%nat]) = Ok x2 /\
    0.9 <= x2 <= x1.
Proof.
  destruct (diversity_penalty_floor_and_monotone (scenario_post 0) "user1"
              (author_frequency (scenario_heap 0) [0%nat])
              (author_frequency (scenario_heap 0) [0%nat; 0%nat]))
    as (x1 & x2 & H1 & H2 & H3 & _).
  - reflexivity.
  - vm_compute. discriminate.
  - exists x1, x2. auto.
Defined.

(** ** [hashtag_bonus] *)

Lemma size_list_to_set_le (hs : list string) :
  (size (list_to_set hs : gset string) <= length hs)%nat.
Proof.
  induction hs as [|x hs IH].
  - rewrite list_to_set_nil, size_empty. simpl. lia.
  - rewrite list_to_set_cons. cbn [length].
    destruct (decide (x ∈ (list_to_set hs : gset string))) as [Hin|Hnin].
    + rewrite (subseteq_union_1_L {[x]} (list_to_set hs))
        by (apply singleton_subseteq_l; exact Hin). lia.
    + rewrite size_union by (apply disjoint_singleton_l; exact Hnin).
      rewrite size_singleton. lia.
Qed.

(** X5: the hashtags of a post count as a set: repeating a hashtag or
    changing the order of the hashtags does not change the bonus. *)
Theorem hashtag_bonus_counts_distinct_tags (trending_hashtags : gset string)
    (hs hs' : list string) (p : post) :
  (forall x, x ∈ hs <-> x ∈ hs') ->
  hashtag_bonus trending_hashtags (with_hashtags hs p)
  = hashtag_bonus trending_hashtags (with_hashtags hs' p).
Proof.
  intros Hsame. unfold hashtag_bonus. simpl.
  replace (list_to_set hs' : gset string) with (list_to_set hs : gset string);
    [reflexivity|].
  apply set_eq. intros x. rewrite !elem_of_list_to_set. apply Hsame.
Qed.

Lemma hashtag_bonus_counts_distinct_tags_witness :
  hashtag_bonus example_trending
    (with_hashtags ["#AI"; "#Bluesky"; "#AI"]%string (scenario_post 0))
  = hashtag_bonus example_trending
      (with_hashtags ["#Bluesky"; "#AI"]%string (scenario_post 0)).
Proof.
  apply (hashtag_bonus_counts_distinct_tags example_trending
           ["#AI"; "#Bluesky"; "#AI"]%string ["#Bluesky"; "#AI"]%string (scenario_post 0)).
  intros x. rewrite !elem_of_cons, !elem_of_nil. tauto.
Defined.

(** X6: the hashtag bonus of a post with hashtags is three points for each
    distinct trending hashtag of the post: it is at least 0, at most three
    times the number of trending hashtags and three times the number of the
    post's hashtags, and 0 exactly when no hashtag of the post is trending. *)
Theorem hashtag_bonus_bounds (trending_hashtags : gset string) (hs : list string)
    (p : post) :
  hashtags p = Some hs ->
  exists b,
    hashtag_bonus trending_hashtags p = Ok b /\
    (0 <= b <= 3 * Z.of_nat (size trending_hashtags))%Z /\
    (b <= 3 * Z.of_nat (length hs))%Z /\
    (b = 0%Z <-> forall x, x ∈ hs -> x ∉ trending_hashtags).
Proof.
  intros Hhs. unfold hashtag_bonus. rewrite Hhs. simpl.
  eexists. split; [reflexivity|].
  set (X := (list_to_set hs : gset string)).
  assert (size (X ∩ trending_hashtags) <= size trending_hashtags)%nat as H1
    by (apply subseteq_size, intersection_subseteq_r).
  assert (size (X ∩ trending_hashtags) <= size X)%nat as H2
    by (apply subseteq_size, intersection_subseteq_l).
  pose proof (size_list_to_set_le hs) as H3. fold X in H3.
  split; [lia|]. split; [lia|]. split.
  - intros H0 x Hx Hin.
    assert (size (X ∩ trending_hashtags) = 0%nat) as Hsz by lia.
    apply size_empty_iff in Hsz.
    assert (x ∈ X ∩ trending_hashtags) as Hx'
      by (apply elem_of_intersection; split; [apply elem_of_list_to_set|]; assumption).
    rewrite Hsz in Hx'. set_solver.
  - intros Hdis.
    assert (X ∩ trending_hashtags ≡ ∅) as He.
    { apply elem_of_equiv_empty. intros x Hx.
      apply elem_of_intersection in Hx as [Hx Hin].
      apply elem_of_list_to_set in Hx. exact (Hdis x Hx Hin). }
    apply size_empty_iff in He. lia.
Qed.

Lemma hashtag_bonus_bounds_witness :
  exists b,
    hashtag_bonus example_trending (scenario_post 0) = Ok b /\
    (0 <= b <= 3 * Z.of_nat (size example_trending))%Z.
Proof.
  destruct (hashtag_bonus_bounds example_trending ["#AI"; "#Bluesky"]%string
              (scenario_post 0) eq_refl) as (b & Hb & Hr & _).
  exists b. auto.
Defined.

(** ** The exceptions of [score] *)

Lemma absent_getitem {A : Type} (key : string) (o : option A) :
  match absent key o with
  | Some k => getitem key o = Raise (KeyError k)
  | None => exists v, getitem key o = Ok v
  end.
Proof. destruct o; simpl; eauto. Qed.

Lemma score_by_first_missing
    (interaction_history : gmap string Z) (trending_hashtags : gset string)
    (format_preferences : gmap string Z) (freq : gmap string Z) (now : R) (p : post) :
  match first_missing p with
  | Some key =>
      key ∈ required_keys /\
      score interaction_history trending_hashtags format_preferences freq now p
      = Raise (KeyError key)
  | None =>
      exists v,
        score interaction_history trending_hashtags format_preferences freq now p = Ok v
  end.
Proof.
  unfold first_missing, score, engagement_score, hashtag_bonus, interaction_bonus,
    content_format_bonus, diversity_penalty, required_keys.
  destruct (likes p); simpl; [|split; [set_solver | reflexivity]].
  destruct (reposts p); simpl; [|split; [set_solver | reflexivity]].
  destruct (comments p); simpl; [|split; [set_solver | reflexivity]].
  destruct (quotes p); simpl; [|split; [set_solver | reflexivity]].
  destruct (hashtags p); simpl; [|split; [set_solver | reflexivity]].
  destruct (author p); simpl; [|split; [set_solver | reflexivity]].
  destruct (content_format p); simpl; [|split; [set_solver | reflexivity]].
  destruct (timestamp p) as [ts|] eqn:Hts; simpl.
  - destruct (time_decay_total now ts p Hts) as (d & ->). simpl. eauto.
  - unfold time_decay. rewrite Hts. simpl. split; [set_solver | reflexivity].
Qed.

(** X7: [score] fails exactly on a post without one of the keys it reads
    with [post[...]], and the [KeyError] names the first absent key in the
    order likes, reposts, comments, quotes, hashtags, author, content_format,
    timestamp; on every other post it returns a number. *)
Theorem score_raises_first_missing_key
    (interaction_history : gmap string Z) (trending_hashtags : gset string)
    (format_preferences : gmap string Z) (freq : gmap string Z) (now : R) (p : post) :
  (forall e,
     score interaction_history trending_hashtags format_preferences freq now p = Raise e
     <-> exists key, first_missing p = Some key /\ e = KeyError key) /\
  ((exists v,
      score interaction_history trending_hashtags format_preferences freq now p = Ok v)
   <-> first_missing p = None).
Proof.
  pose proof (score_by_first_missing interaction_history trending_hashtags
                format_preferences freq now p) as H.
  destruct (first_missing p) as [key|].
  - destruct H as [_ H]. rewrite H. split.
    + intros e. split.
      * intros [= <-]. eauto.
      * intros (key' & [= <-] & ->). reflexivity.
    + split; [intros [v Hv]; discriminate | discriminate].
  - destruct H as [v H]. rewrite H. split.
    + intros e. split; [discriminate | intros (key & Hk & _); discriminate].
    + split; [reflexivity | eauto].
Qed.

(** ** The exceptions of the whole call *)

Lemma first_missing_complete (p : post) : first_missing p = None <-> complete p.
Proof.
  unfold first_missing, complete. split.
  - intros H.
    destruct (likes p), (reposts p), (comments p), (quotes p), (hashtags p),
      (author p), (content_format p), (timestamp p);
      simpl in H; try discriminate; repeat split; eauto.
  - intros ([? ->] & [? ->] & [? ->] & [? ->] & [? ->] & [? ->] & [? ->] & [? ->]).
    reflexivity.
Qed.

Lemma first_missing_required (p : post) (key : string) :
  first_missing p = Some key -> key ∈ required_keys.
Proof.
  intros Hk.
  pose proof (score_by_first_missing ∅ ∅ ∅ ∅ 0 p) as Hs.
  rewrite Hk in Hs. apply Hs.
Qed.

Section LoopMore.

Variable interaction_history : gmap string Z.
Variable trending_hashtags : gset string.
Variable format_preferences : gmap string Z.
Variable clock : nat -> R.

Local Abbreviation score' := (score interaction_history trending_hashtags format_preferences).
Local Abbreviation loop := (score_posts interaction_history trending_hashtags format_preferences clock).

(** The loop over a list in two parts. *)
Lemma score_posts_app (freq : gmap string Z) (ls1 ls2 : list loc) (k : nat) (h h1 : heap) :
  loop freq k ls1 h = (Ok tt, h1) ->
  loop freq k (ls1 ++ ls2) h = loop freq (k + length ls1) ls2 h1.
Proof.
  revert k h. induction ls1 as [|l0 ls1 IH]; intros k h Hrun; simpl in *.
  - injection Hrun as <-. rewrite Nat.add_0_r. reflexivity.
  - destruct (score' freq (clock k) (h l0)) as [s|e]; [|discriminate].
    rewrite (IH _ _ Hrun). f_equal. lia.
Qed.

(** A failing run names the first key that the first incomplete post is
    missing. *)
Lemma score_posts_Raise (freq : gmap string Z) (ls : list loc) (k : nat) (h h' : heap)
    (e : pyerr) :
  loop freq k ls h = (Raise e, h') ->
  exists l key, l ∈ ls /\ first_missing (h l) = Some key /\ e = KeyError key.
Proof.
  revert k h. induction ls as [|l0 ls IH]; intros k h Hrun; simpl in Hrun.
  - discriminate.
  - pose proof (score_by_first_missing interaction_history trending_hashtags
                  format_preferences freq (clock k) (h l0)) as Hfm.
    destruct (score' freq (clock k) (h l0)) as [s|e0] eqn:Hs.
    + destruct (IH _ _ Hrun) as (l & key & Hl & Hk & ->).
      exists l, key. split; [right; exact Hl|]. split; [|reflexivity].
      destruct (decide (l = l0)) as [->|Hne].
      * rewrite store_eq in Hk. exact Hk.
      * rewrite store_ne in Hk by assumption. exact Hk.
    + injection Hrun as <- <-.
      destruct (first_missing (h l0)) as [key|] eqn:Hk.
      * destruct Hfm as [_ Hfm]. injection Hfm as ->.
        exists l0, key. split; [left|]. split; [exact Hk | reflexivity].
      * destruct Hfm as [v Hv]. discriminate.
Qed.

(** The score reads the count of the post's own author only. *)
Lemma score_freq_ext (freq1 freq2 : gmap string Z) (now : R) (p : post) :
  (forall a, author p = Some a -> default 0%Z (freq1 !! a) = default 0%Z (freq2 !! a)) ->
  score' freq1 now p = score' freq2 now p.
Proof.
  intros Heq. unfold score, diversity_penalty, interaction_bonus.
  destruct (author p) as [a|]; simpl.
  - rewrite (Heq a eq_refl). reflexivity.
  - destruct (engagement_score p); simpl; [|reflexivity].
    destruct (hashtag_bonus trending_hashtags p); reflexivity.
Qed.

Lemma score_posts_freq_ext (freq1 freq2 : gmap string Z) (ls : list loc) (k : nat)
    (h : heap) :
  (forall l a, l ∈ ls -> author (h l) = Some a ->
     default 0%Z (freq1 !! a) = default 0%Z (freq2 !! a)) ->
  loop freq1 k ls h = loop freq2 k ls h.
Proof.
  revert k h. induction ls as [|l0 ls IH]; intros k h Heq; simpl; [reflexivity|].
  rewrite (score_freq_ext freq1 freq2) by (intros a Ha; eapply Heq; [left | exact Ha]).
  destruct (score' freq2 (clock k) (h l0)) as [s|e]; [|reflexivity].
  apply IH. intros l a Hl Ha. apply (Heq l a); [right; exact Hl|].
  destruct (decide (l = l0)) as [->|Hne].
  - rewrite store_eq in Ha. exact Ha.
  - rewrite store_ne in Ha by assumption. exact Ha.
Qed.

(** Two heaps that differ in [final_score] fields only are scored alike. *)
Lemma score_posts_agree (freq : gmap string Z) (ls : list loc) (k : nat)
    (h1 h2 h1' : heap) (r : result unit) :
  (forall l, clear_final_score (h1 l) = clear_final_score (h2 l)) ->
  loop freq k ls h1 = (r, h1') ->
  exists h2',
    loop freq k ls h2 = (r, h2') /\
    (forall l, clear_final_score (h1' l) = clear_final_score (h2' l)) /\
    (r = Ok tt -> forall l, l ∈ ls -> h1' l = h2' l).
Proof.
  revert k h1 h2. induction ls as [|l0 ls IH]; intros k h1 h2 Hcl Hrun; simpl in *.
  - injection Hrun as <- <-. exists h2. split; [reflexivity|]. split; [exact Hcl|].
    intros _ l Hl. inversion Hl.
  - assert (score' freq (clock k) (h2 l0) = score' freq (clock k) (h1 l0)) as Hsame.
    { change (score' freq (clock k) (clear_final_score (h2 l0))
              = score' freq (clock k) (clear_final_score (h1 l0))).
      rewrite Hcl. reflexivity. }
    rewrite Hsame.
    destruct (score' freq (clock k) (h1 l0)) as [s|e].
    + assert (set_final_score s (h1 l0) = set_final_score s (h2 l0)) as Hset.
      { change (set_final_score s (clear_final_score (h1 l0))
                = set_final_score s (clear_final_score (h2 l0))).
        rewrite Hcl. reflexivity. }
      destruct (IH (S k) (store h1 l0 (set_final_score s (h1 l0)))
                  (store h2 l0 (set_final_score s (h2 l0)))) as (h2' & Hrun2 & Hcl' & Heq).
      { intros l. destruct (decide (l = l0)) as [->|Hne].
        - rewrite !store_eq, Hset. reflexivity.
        - rewrite !store_ne by assumption. apply Hcl. }
      { exact Hrun. }
      exists h2'. split; [exact Hrun2|]. split; [exact Hcl'|].
      intros -> l Hl. destruct (decide (l ∈ ls)) as [Hin|Hnin]; [apply Heq; auto|].
      apply elem_of_cons in Hl as [->|Hl]; [|contradiction].
      destruct (score_posts_frame _ _ _ _ _ _ _ _ _ _ Hrun) as [Hout1 _].
      destruct (score_posts_frame _ _ _ _ _ _ _ _ _ _ Hrun2) as [Hout2 _].
      rewrite (Hout1 l0 Hnin), (Hout2 l0 Hnin), !store_eq. exact Hset.
    + injection Hrun as <- <-. exists h2. split; [reflexivity|]. split; [exact Hcl|].
      discriminate.
Qed.

End LoopMore.

Lemma sort_desc_Raise_complex {A : Type} (xs : list (pynum * A)) (e : pyerr) :
  sort_desc xs = Raise e ->
  (2 <= length xs)%nat /\ exists a, a ∈ xs /\ ~ is_float a.1.
Proof.
  intros Hr. split.
  - destruct xs as [|[k x] [|[k' x'] xs]]; simpl in *; try discriminate. lia.
  - destruct (decide (Forall (fun a => is_float a.1) xs)) as [Hall|Hn].
    + destruct (sort_desc_total xs Hall) as [r Hok]. congruence.
    + apply not_Forall_Exists in Hn; [|intros a; apply _].
      apply Exists_exists in Hn as (a & Ha & Hnf). eauto.
Qed.

Lemma keyed_ext {A : Type} (key1 key2 : A -> result pynum) (xs : list A) :
  (forall x, x ∈ xs -> key1 x = key2 x) -> keyed key1 xs = keyed key2 xs.
Proof.
  induction xs as [|x xs IH]; intros Heq; simpl; [reflexivity|].
  rewrite (Heq x) by left. rewrite IH by (intros y Hy; apply Heq; right; exact Hy).
  reflexivity.
Qed.

Lemma has_author_relevant (user_follows : gset string) (h : heap) (posts : list loc) :
  Forall (has_author h) (relevant user_follows h posts).
Proof.
  apply Forall_forall. intros l Hl. apply elem_of_relevant in Hl as [_ Hf].
  apply followed_has_author in Hf as (a & Ha & _). unfold has_author. rewrite Ha. eauto.
Qed.

Lemma relevant_idemp (user_follows : gset string) (h : heap) (posts : list loc) :
  relevant user_follows h (relevant user_follows h posts) = relevant user_follows h posts.
Proof.
  unfold relevant. induction posts as [|l ls IH]; [reflexivity|].
  rewrite (filter_cons _ l ls).
  destruct (decide (followed user_follows (h l))) as [Hf|Hf]; [|exact IH].
  rewrite filter_cons. destruct (decide (followed user_follows (h l))); [|contradiction].
  rewrite IH. reflexivity.
Qed.

Lemma count_author_relevant (user_follows : gset string) (h : heap) (posts : list loc)
    (a : string) :
  a ∈ user_follows ->
  filter (fun l => author (h l) = Some a) (relevant user_follows h posts)
  = filter (fun l => author (h l) = Some a) posts.
Proof.
  intros Ha. unfold relevant. induction posts as [|l ls IH]; [reflexivity|].
  rewrite (filter_cons _ l ls).
  destruct (decide (followed user_follows (h l))) as [Hf|Hf].
  - rewrite !filter_cons, IH. reflexivity.
  - rewrite IH, filter_cons.
    destruct (decide (author (h l) = Some a)) as [Hl|Hl]; [|reflexivity].
    exfalso. apply Hf. unfold followed. rewrite Hl. exact Ha.
Qed.

Section CallMore.

Variable clock : nat -> R.
Variable h : heap.
Variable posts : list loc.
Variable user_follows : gset string.
Variable interaction_history : gmap string Z.
Variable trending_hashtags : gset string.
Variable format_preferences : gmap string Z.

Local Abbreviation call :=
  (generate_feed clock h posts user_follows interaction_history trending_hashtags
     format_preferences).

(** X8: when some input post, followed or not, has no [author], the call
    raises [KeyError] for [author] before it writes anything: no post is
    changed. *)
Theorem missing_author_aborts_before_any_write (l : loc) :
  l ∈ posts -> author (h l) = None -> call = (Raise (KeyError "author"), h).
Proof.
  intros Hl Hnone. apply generate_feed_no_author.
  intros Hall. rewrite Forall_forall in Hall.
  destruct (Hall l Hl) as [a Ha]. congruence.
Qed.

(** X9: the call raises nothing but a [KeyError] for one of the keys it
    reads with [post[...]], or the [TypeError] of the sort; the latter only
    when two or more posts are kept and one of them is stamped later than a
    clock reading of the call. *)
Theorem generate_feed_exceptions (e : pyerr) (h' : heap) :
  call = (Raise e, h') ->
  (exists key, key ∈ required_keys /\ e = KeyError key) \/
  (e = TypeError /\ (2 <= length (relevant user_follows h posts))%nat /\
   exists l ts j,
     l ∈ relevant user_follows h posts /\
     (j < length (relevant user_follows h posts))%nat /\
     timestamp (h l) = Some ts /\ clock j < ts).
Proof.
  intros Hrun.
  destruct (decide (Forall (has_author h) posts)) as [Ha|Hn].
  - rewrite (generate_feed_unfold _ _ _ _ _ _ _ Ha) in Hrun.
    destruct (score_posts _ _ _ _ _ _ _ _) as [[[]|e1] h1] eqn:Hloop.
    + injection Hrun as Hsort <-. right.
      unfold sorted_reverse in Hsort.
      destruct (keyed_total (final_key h1) (relevant user_follows h posts)) as [ks Hks].
      { apply Forall_forall. intros l Hl.
        destruct (score_posts_Ok _ _ _ _ _ _ _ _ _ Hloop l Hl) as (j & s & _ & _ & Hh').
        exists s. unfold final_key. rewrite Hh'. reflexivity. }
      rewrite Hks in Hsort. simpl in Hsort.
      apply bind_Raise in Hsort as [Hsort|(r & _ & Hsort)]; [|discriminate].
      pose proof (sort_desc_Raise _ _ Hsort) as ->. split; [reflexivity|].
      destruct (keyed_Ok _ _ _ Hks) as [Hmap Hkeys].
      destruct (sort_desc_Raise_complex _ _ Hsort) as (Hlen & [k l] & Hin & Hnf).
      assert (2 <= length (relevant user_follows h posts))%nat as Hlen'
        by (rewrite <- Hmap, length_map; exact Hlen).
      split; [exact Hlen'|].
      rewrite Forall_forall in Hkeys. specialize (Hkeys _ Hin). simpl in Hkeys, Hnf.
      assert (l ∈ relevant user_follows h posts) as Hl
        by (rewrite <- Hmap; apply (list_elem_of_fmap_2 snd _ _ Hin)).
      destruct (score_posts_Ok _ _ _ _ _ _ _ _ _ Hloop l Hl) as (j & s & Hj & Hs & Hh').
      unfold final_key in Hkeys. rewrite Hh' in Hkeys. simpl in Hkeys.
      injection Hkeys as ->. apply lookup_lt_Some in Hj.
      pose proof (score_Ok_complete _ _ _ _ _ _ _ Hs) as Hc.
      destruct Hc as (_ & _ & _ & _ & _ & _ & _ & [ts Hts]).
      exists l, ts, j. split; [exact Hl|]. split; [exact Hj|]. split; [exact Hts|].
      apply Rnot_le_lt. intros Hle.
      destruct (score_past interaction_history trending_hashtags format_preferences
                  (author_frequency h posts) (clock (0 + j)) ts (h l)) as (a & _ & Hs');
        [eapply score_Ok_complete; exact Hs | exact Hts | exact Hle |].
      rewrite Hs' in Hs. injection Hs as <-. apply Hnf. exact I.
    + injection Hrun as <- <-. left.
      destruct (score_posts_Raise _ _ _ _ _ _ _ _ _ _ Hloop) as (l & key & _ & Hk & ->).
      exists key. split; [eapply first_missing_required; exact Hk | reflexivity].
  - rewrite (generate_feed_no_author _ _ _ _ _ _ _ Hn) in Hrun.
    injection Hrun as <- _. left. exists "author"%string.
    split; [unfold required_keys; set_solver | reflexivity].
Qed.

(** X10: a failing call is not undone. When the kept posts are [ls1], then
    a post [l] that lacks a key, then [ls2], and the posts of [ls1] are
    complete, the call raises [KeyError] for the first key [l] lacks; the
    posts of [ls1] keep the [final_score] they were given and every other
    post is as it was. *)
Theorem failing_call_keeps_earlier_scores (ls1 ls2 : list loc) (l : loc) (key : string) :
  Forall (has_author h) posts ->
  relevant user_follows h posts = ls1 ++ l :: ls2 ->
  (forall l', l' ∈ ls1 -> complete (h l')) ->
  first_missing (h l) = Some key ->
  exists h',
    call = (Raise (KeyError key), h') /\
    (forall l', l' ∈ ls1 -> exists s, h' l' = set_final_score s (h l')) /\
    (forall l', l' ∉ ls1 -> h' l' = h l').
Proof.
  intros Ha Hrel Hc Hk.
  rewrite (generate_feed_unfold _ _ _ _ _ _ _ Ha), Hrel.
  destruct (score_posts_complete interaction_history trending_hashtags
              format_preferences clock (author_frequency h posts) ls1 0 h Hc)
    as [h1 Hloop1].
  rewrite (score_posts_app _ _ _ _ _ _ _ _ _ _ Hloop1). simpl.
  destruct (score_posts_frame _ _ _ _ _ _ _ _ _ _ Hloop1) as [Hout Hsc].
  pose proof (score_by_first_missing interaction_history trending_hashtags
                format_preferences (author_frequency h posts)
                (clock (length ls1)) (h1 l)) as Hfm.
  assert (first_missing (h1 l) = Some key) as Hk1.
  { destruct (Hsc l) as [->|[s ->]]; exact Hk. }
  rewrite Hk1 in Hfm. destruct Hfm as [_ ->].
  exists h1. split; [reflexivity|]. split; [|exact Hout].
  intros l' Hl'.
  destruct (score_posts_Ok _ _ _ _ _ _ _ _ _ Hloop1 l' Hl') as (j & s & _ & _ & Hh').
  eauto.
Qed.

(** X11: the posts of authors who are not followed have no effect at all:
    leaving them out of the input beforehand gives the same result and the
    same final posts. *)
Theorem unfollowed_posts_do_not_matter :
  Forall (has_author h) posts ->
  call = generate_feed clock h (relevant user_follows h posts) user_follows
           interaction_history trending_hashtags format_preferences.
Proof.
  intros Ha.
  rewrite (generate_feed_unfold _ _ _ _ _ _ _ Ha).
  rewrite (generate_feed_unfold _ _ _ _ _ _ _ (has_author_relevant user_follows h posts)).
  rewrite relevant_idemp.
  rewrite (score_posts_freq_ext interaction_history trending_hashtags format_preferences
             clock (author_frequency h posts)
             (author_frequency h (relevant user_follows h posts))); [reflexivity|].
  intros l a Hl Hau.
  rewrite (author_frequency_lookup h posts a Ha).
  rewrite (author_frequency_lookup h _ a (has_author_relevant user_follows h posts)).
  rewrite count_author_relevant; [reflexivity|].
  apply elem_of_relevant in Hl as [_ Hf]. unfold followed in Hf.
  rewrite Hau in Hf. exact Hf.
Qed.

End CallMore.

Section CallFurther.

Variable clock : nat -> R.
Variable h : heap.
Variable posts : list loc.
Variable user_follows : gset string.
Variable interaction_history : gmap string Z.
Variable trending_hashtags : gset string.
Variable format_preferences : gmap string Z.

Local Abbreviation call :=
  (generate_feed clock h posts user_follows interaction_history trending_hashtags
     format_preferences).

(** X12: a [final_score] that the input posts already carry, say from an
    earlier ranking, is never read: the call on the same posts without any
    [final_score] returns the same list and leaves the same posts in it. *)
Theorem stale_final_score_is_ignored (out : list loc) (h' : heap) :
  call = (Ok out, h') ->
  exists h0,
    generate_feed clock (fun l => clear_final_score (h l)) posts user_follows
      interaction_history trending_hashtags format_preferences = (Ok out, h0) /\
    forall l, l ∈ out -> h0 l = h' l.
Proof.
  intros Hrun.
  destruct (generate_feed_Ok _ _ _ _ _ _ _ _ _ Hrun) as (Ha & Hloop & Hsort).
  destruct (sorted_reverse_Ok _ _ _ Hsort) as (Hperm & _).
  set (hc := fun l => clear_final_score (h l)).
  assert (Forall (has_author hc) posts) as Hac
    by (eapply Forall_impl; [exact Ha | intros l Hl; exact Hl]).
  assert (relevant user_follows hc posts = relevant user_follows h posts) as Hrel
    by (apply list_filter_iff; intros l; reflexivity).
  assert (author_frequency hc posts = author_frequency h posts) as Hfreq
    by (unfold author_frequency; f_equal).
  rewrite (generate_feed_unfold _ _ _ _ _ _ _ Hac), Hrel, Hfreq.
  destruct (score_posts_agree interaction_history trending_hashtags format_preferences
              clock (author_frequency h posts) (relevant user_follows h posts) 0
              h hc h' (Ok tt)) as (h0 & Hloop0 & _ & Heq); [reflexivity | exact Hloop |].
  rewrite Hloop0. exists h0.
  assert (forall l, l ∈ relevant user_follows h posts -> h0 l = h' l) as Hsame
    by (intros l Hl; symmetry; apply Heq; auto).
  split.
  - f_equal. rewrite <- Hsort. unfold sorted_reverse.
    rewrite (keyed_ext (final_key h0) (final_key h')); [reflexivity|].
    intros l Hl. unfold final_key. rewrite (Hsame l Hl). reflexivity.
  - intros l Hl. apply Hsame. rewrite <- Hperm. exact Hl.
Qed.

(** X13: an object that stands more than once in the input is scored at
    each of its places, each time at a new reading of the clock, and the
    [final_score] that stays is the one of its last place among the kept
    posts. *)
Theorem repeated_post_keeps_last_score (out : list loc) (h' : heap) (l : loc) :
  call = (Ok out, h') ->
  l ∈ posts -> followed user_follows (h l) ->
  exists j s,
    relevant user_follows h posts !! j = Some l /\
    (forall j', (j < j')%nat -> relevant user_follows h posts !! j' <> Some l) /\
    score interaction_history trending_hashtags format_preferences
      (author_frequency h posts) (clock j) (h l) = Ok s /\
    final_score (h' l) = Some s.
Proof.
  intros Hrun Hl Hf.
  destruct (generate_feed_Ok _ _ _ _ _ _ _ _ _ Hrun) as (_ & Hloop & _).
  assert (l ∈ relevant user_follows h posts) as Hrel by (apply elem_of_relevant; auto).
  destruct (score_posts_Ok_last _ _ _ _ _ _ _ _ _ Hloop l Hrel)
    as (j & s & Hj & Hlast & Hs & Hh').
  exists j, s. repeat split; try assumption. rewrite Hh'. reflexivity.
Qed.

(** X14: in a call that returns, the penalty factor of every output post
    lies between 0.9 and 0.98: the count of an author includes the post
    itself, so even the only post of an author loses 2%. *)
Theorem kept_post_penalty_bounds (out : list loc) (h' : heap) (l : loc) :
  call = (Ok out, h') -> l ∈ out ->
  exists j d pen,
    time_decay (clock j) (h l) = Ok d /\
    diversity_penalty (h l) (author_frequency h posts) = Ok pen /\
    0.9 <= pen <= 0.98 /\
    final_score (h' l)
    = Some (py_mul
              (py_mul (PyFloat (bundle interaction_history trending_hashtags
                                  format_preferences (h l))) d)
              (PyFloat pen)).
Proof.
  intros Hrun Hl.
  destruct (generate_feed_Ok _ _ _ _ _ _ _ _ _ Hrun) as (Ha & Hloop & Hsort).
  destruct (sorted_reverse_Ok _ _ _ Hsort) as (Hperm & _).
  rewrite Hperm in Hl.
  destruct (score_posts_Ok _ _ _ _ _ _ _ _ _ Hloop l Hl) as (j & s & _ & Hs & Hh').
  destruct (score_complete interaction_history trending_hashtags format_preferences
              (author_frequency h posts) (clock (0 + j)) (h l)) as (a & d & Hau & Hd & Hs');
    [eapply score_Ok_complete; exact Hs|].
  exists (0 + j)%nat, d. eexists. split; [exact Hd|].
  unfold diversity_penalty. rewrite Hau. simpl. split; [reflexivity|].
  rewrite Hs' in Hs. injection Hs as <-. rewrite Hh'. split; [|reflexivity].
  rewrite (author_frequency_lookup h posts a Ha).
  assert (1 <= length (filter (fun l' => author (h l') = Some a) posts))%nat as Hn.
  { apply elem_of_relevant in Hl as [Hin _].
    assert (l ∈ filter (fun l' => author (h l') = Some a) posts) as Hlf
      by (apply list_elem_of_filter; auto).
    destruct (filter (fun l' => author (h l') = Some a) posts);
      [inversion Hlf | simpl; lia]. }
  apply inj_le, IZR_le in Hn.
  set (n := IZR (Z.of_nat (length (filter (fun l' => author (h l') = Some a) posts)))) in *.
  change (IZR (Z.of_nat 1)) with 1 in Hn. split; [apply Rmax_r|]. apply Rmax_lub; lra.
Qed.

End CallFurther.

(** ** Engagement *)

(** X15: more engagement never lowers the score of a post that is not in
    the future: when likes, reposts, comments, quotes and the engagement of
    followers grow, all else equal, the score does not fall. *)
Theorem more_engagement_never_lowers_score
    (interaction_history : gmap string Z) (trending_hashtags : gset string)
    (format_preferences : gmap string Z) (freq : gmap string Z)
    (now ts : R) (p : post) (dl dr dc dq de : Z) :
  complete p -> timestamp p = Some ts -> ts <= now ->
  (0 <= dl)%Z -> (0 <= dr)%Z -> (0 <= dc)%Z -> (0 <= dq)%Z -> (0 <= de)%Z ->
  exists x y,
    score interaction_history trending_hashtags format_preferences freq now p
    = Ok (PyFloat x) /\
    score interaction_history trending_hashtags format_preferences freq now
      (add_engagement dl dr dc dq de p) = Ok (PyFloat y) /\
    x <= y.
Proof.
  intros Hc Hts Hle Hdl Hdr Hdc Hdq Hde.
  assert (complete (add_engagement dl dr dc dq de p)) as Hc'.
  { destruct Hc as (? & [? Hl] & [? Hr] & [? Hco] & [? Hq] & ? & ? & ?).
    unfold complete. simpl. rewrite Hl, Hr, Hco, Hq. simpl. repeat split; eauto. }
  destruct (score_past interaction_history trending_hashtags format_preferences
              freq now ts p Hc Hts Hle) as (a & Ha & Hs).
  destruct (score_past interaction_history trending_hashtags format_preferences
              freq now ts (add_engagement dl dr dc dq de p) Hc' Hts Hle)
    as (a' & Ha' & Hs').
  simpl in Ha'. assert (a' = a) as -> by congruence.
  eexists _, _. split; [exact Hs|]. split; [exact Hs'|].
  assert (0 < Rmax (1 - IZR (default 0%Z (freq !! a)) * 0.02) 0.9) as Hpen.
  { pose proof (Rmax_r (1 - IZR (default 0%Z (freq !! a)) * 0.02) 0.9). lra. }
  pose proof (rpow_nonneg ((now - ts) / 3600) 1.2) as Hr.
  assert (0 < 1 / (1 + rpow ((now - ts) / 3600) 1.2)) as Hdec
    by (apply Rdiv_lt_0_compat; lra).
  apply Rmult_le_compat_r; [lra|]. apply Rmult_le_compat_r; [lra|].
  destruct Hc as (_ & [l Hl] & [r Hre] & [c Hco] & [q Hq] & _).
  unfold bundle. simpl. rewrite Hl, Hre, Hco, Hq. simpl.
  apply IZR_le in Hdl, Hdr, Hdc, Hdq, Hde.
  rewrite !plus_IZR.
  assert (IZR (default 0%Z (engaged_by_followers p) * 2)
          <= IZR (default 0%Z ((fun x => x + de)%Z <$> engaged_by_followers p) * 2)) as He.
  { destruct (engaged_by_followers p); simpl; [|lra].
    rewrite !mult_IZR, plus_IZR. lra. }
  lra.
Qed.

(** ** The further properties at concrete inputs *)

Lemma missing_author_aborts_before_any_write_witness :
  generate_feed (still 0) (scenario_heap 0) [0%nat; 1%nat] scenario_follows
    scenario_history example_trending scenario_formats
  = (Raise (KeyError "author"), scenario_heap 0).
Proof.
  apply (missing_author_aborts_before_any_write (still 0) (scenario_heap 0)
           [0%nat; 1%nat] scenario_follows scenario_history example_trending
           scenario_formats 1%nat).
  - right. left.
  - reflexivity.
Defined.

Lemma generate_feed_exceptions_witness :
  (exists key, key ∈ required_keys /\ KeyError "author" = KeyError key) \/
  (KeyError "author" = TypeError /\
   (2 <= length (relevant scenario_follows (scenario_heap 0) [0%nat; 1%nat]))%nat /\
   exists l ts j,
     l ∈ relevant scenario_follows (scenario_heap 0) [0%nat; 1%nat] /\
     (j < length (relevant scenario_follows (scenario_heap 0) [0%nat; 1%nat]))%nat /\
     timestamp (scenario_heap 0 l) = Some ts /\ still 0 j < ts).
Proof.
  apply (generate_feed_exceptions (still 0) (scenario_heap 0) [0%nat; 1%nat]
           scenario_follows scenario_history example_trending scenario_formats
           (KeyError "author") (scenario_heap 0)).
  reflexivity.
Defined.

Lemma failing_call_keeps_earlier_scores_witness :
  exists h',
    generate_feed (still 0) half_scored_heap [0%nat; 1%nat] scenario_follows
      scenario_history example_trending scenario_formats
    = (Raise (KeyError "comments"), h') /\
    (forall l', l' ∈ [0%nat] -> exists s, h' l' = set_final_score s (half_scored_heap l')) /\
    (forall l', l' ∉ [0%nat] -> h' l' = half_scored_heap l').
Proof.
  apply (failing_call_keeps_earlier_scores (still 0) half_scored_heap [0%nat; 1%nat]
           scenario_follows scenario_history example_trending scenario_formats
           [0%nat] [] 1%nat "comments").
  - repeat constructor; unfold has_author; simpl; eauto.
  - reflexivity.
  - intros l' Hl'. apply list_elem_of_singleton in Hl' as ->.
    unfold complete. simpl. repeat split; eauto.
  - reflexivity.
Defined.

Lemma unfollowed_posts_do_not_matter_witness :
  generate_feed (still 0) mixed_heap [0%nat; 1%nat] scenario_follows scenario_history
    example_trending scenario_formats
  = generate_feed (still 0) mixed_heap [0%nat] scenario_follows scenario_history
      example_trending scenario_formats.
Proof.
  apply (unfollowed_posts_do_not_matter (still 0) mixed_heap [0%nat; 1%nat]
           scenario_follows scenario_history example_trending scenario_formats).
  repeat constructor; unfold has_author; simpl; eauto.
Defined.

Lemma stale_heap_returns :
  exists s,
    generate_feed (still 0) stale_heap [0%nat] scenario_follows scenario_history
      example_trending scenario_formats
    = (Ok [0%nat], store stale_heap 0%nat (set_final_score s (stale_heap 0%nat))).
Proof.
  destruct (generate_feed_single (still 0) stale_heap [0%nat] scenario_follows
              scenario_history example_trending scenario_formats 0%nat)
    as (s & _ & Hrun).
  - repeat constructor. unfold has_author. simpl. eauto.
  - reflexivity.
  - unfold complete. simpl. repeat split; eauto.
  - eauto.
Qed.

Lemma stale_final_score_is_ignored_witness :
  exists h0,
    generate_feed (still 0) (fun l => clear_final_score (stale_heap l)) [0%nat]
      scenario_follows scenario_history example_trending scenario_formats
    = (Ok [0%nat], h0).
Proof.
  destruct stale_heap_returns as (s & Hrun).
  destruct (stale_final_score_is_ignored _ _ _ _ _ _ _ _ _ Hrun) as (h0 & Hrun0 & _).
  exists h0. exact Hrun0.
Defined.

Lemma twice_listed_returns :
  exists out h',
    generate_feed ticking (scenario_heap 0) [0%nat; 0%nat] scenario_follows
      scenario_history example_trending scenario_formats = (Ok out, h').
Proof.
  apply generate_feed_total.
  - repeat constructor; unfold has_author; simpl; eauto.
  - intros l Hl. change (l ∈ [0%nat; 0%nat]) in Hl.
    apply elem_of_cons in Hl as [->|Hl]; [|apply list_elem_of_singleton in Hl as ->];
      unfold complete; simpl; repeat split; eauto.
  - intros l ts k Hl Hts _. change (l ∈ [0%nat; 0%nat]) in Hl.
    pose proof (pos_INR k) as Hk. unfold ticking.
    apply elem_of_cons in Hl as [->|Hl]; [|apply list_elem_of_singleton in Hl as ->];
      simpl in Hts; injection Hts as <-; lra.
Qed.

Lemma repeated_post_keeps_last_score_witness :
  exists out h' s,
    generate_feed ticking (scenario_heap 0) [0%nat; 0%nat] scenario_follows
      scenario_history example_trending scenario_formats = (Ok out, h') /\
    score scenario_history example_trending scenario_formats
      (author_frequency (scenario_heap 0) [0%nat; 0%nat]) (ticking 1) (scenario_heap 0 0%nat)
    = Ok s /\
    final_score (h' 0%nat) = Some s.
Proof.
  destruct twice_listed_returns as (out & h' & Hrun).
  destruct (repeated_post_keeps_last_score _ _ _ _ _ _ _ out h' 0%nat Hrun)
    as (j & s & Hj & Hlast & Hs & Hfin).
  - left.
  - apply scenario_followed.
  - change (relevant scenario_follows (scenario_heap 0) [0%nat; 0%nat])
      with [0%nat; 0%nat] in Hj, Hlast.
    destruct j as [|[|j]].
    + exfalso. apply (Hlast 1%nat); [lia | reflexivity].
    + exists out, h', s. auto.
    + discriminate.
Defined.

Lemma kept_post_penalty_bounds_witness :
  exists j d pen,
    time_decay (still 0 j) (scenario_heap 0 0%nat) = Ok d /\
    diversity_penalty (scenario_heap 0 0%nat) (author_frequency (scenario_heap 0) [0%nat])
    = Ok pen /\
    0.9 <= pen <= 0.98.
Proof.
  destruct (kept_post_penalty_bounds _ _ _ _ _ _ _ _ _ 0%nat (scenario_run 0))
    as (j & d & pen & Hd & Hp & Hb & _).
  - left.
  - exists j, d, pen. auto.
Defined.

Lemma more_engagement_never_lowers_score_witness :
  exists x y,
    score ∅ ∅ scenario_formats ∅ 3600 (plain_post 0) = Ok (PyFloat x) /\
    score ∅ ∅ scenario_formats ∅ 3600 (add_engagement 1 0 0 0 0 (plain_post 0))
    = Ok (PyFloat y) /\
    x <= y.
Proof.
  apply (more_engagement_never_lowers_score ∅ ∅ scenario_formats ∅ 3600 0
           (plain_post 0) 1 0 0 0 0).
  - unfold complete. simpl. repeat split; eauto.
  - reflexivity.
  - lra.
  - lia.
  - lia.
  - lia.
  - lia.
  - lia.
Defined.

(** ** When the call returns, and how large a score can be *)

Section CallReturns.

Variable clock : nat -> R.
Variable h : heap.
Variable posts : list loc.
Variable user_follows : gset string.
Variable interaction_history : gmap string Z.
Variable trending_hashtags : gset string.
Variable format_preferences : gmap string Z.

Local Abbreviation call :=
  (generate_feed clock h posts user_follows interaction_history trending_hashtags
     format_preferences).

(** X16: when no kept post is in the future, the call returns a list
    exactly when every input post has an [author] and every kept post has the
    seven other keys that are read with [post[...]]. *)
Theorem returns_iff_keys_present :
  not_future clock h (relevant user_follows h posts) ->
  ((exists out h', call = (Ok out, h')) <->
   Forall (has_author h) posts /\
   forall l, l ∈ relevant user_follows h posts -> complete (h l)).
Proof.
  intros Hnf. split.
  - intros (out & h' & Hrun).
    destruct (generate_feed_Ok _ _ _ _ _ _ _ _ _ Hrun) as (Ha & Hloop & _).
    split; [exact Ha|]. intros l Hl.
    destruct (score_posts_Ok _ _ _ _ _ _ _ _ _ Hloop l Hl) as (j & s & _ & Hs & _).
    eapply score_Ok_complete. exact Hs.
  - intros [Ha Hc]. apply generate_feed_total; assumption.
Qed.

(** X17: in a call that returns, a kept post that is not in the future and
    whose additive part is not negative gets a float between 0 and 98% of
    that additive part. *)
Theorem final_score_at_most_98_percent (out : list loc) (h' : heap) (l : loc) :
  call = (Ok out, h') -> l ∈ out ->
  not_future clock h (relevant user_follows h posts) ->
  0 <= bundle interaction_history trending_hashtags format_preferences (h l) ->
  exists x,
    final_score (h' l) = Some (PyFloat x) /\
    0 <= x <= 0.98 * bundle interaction_history trending_hashtags format_preferences (h l).
Proof.
  intros Hrun Hl Hnf Hb.
  destruct (generate_feed_Ok _ _ _ _ _ _ _ _ _ Hrun) as (Ha & Hloop & Hsort).
  destruct (sorted_reverse_Ok _ _ _ Hsort) as (Hperm & _).
  rewrite Hperm in Hl.
  destruct (score_posts_Ok _ _ _ _ _ _ _ _ _ Hloop l Hl) as (j & s & Hj & Hs & Hh').
  apply lookup_lt_Some in Hj. change (0 + j)%nat with j in Hs.
  pose proof (score_Ok_complete _ _ _ _ _ _ _ Hs) as Hc.
  destruct Hc as (Hau & _ & _ & _ & _ & _ & _ & [ts Hts]).
  destruct (score_past interaction_history trending_hashtags format_preferences
              (author_frequency h posts) (clock j) ts (h l)) as (a & Ha' & Hs');
    [eapply score_Ok_complete; exact Hs | exact Hts | exact (Hnf l ts _ Hl Hts Hj) |].
  rewrite Hs' in Hs. injection Hs as <-. rewrite Hh'.
  eexists. split; [reflexivity|].
  rewrite (author_frequency_lookup h posts a Ha).
  assert (1 <= length (filter (fun l' => author (h l') = Some a) posts))%nat as Hn.
  { apply elem_of_relevant in Hl as [Hin _].
    assert (l ∈ filter (fun l' => author (h l') = Some a) posts) as Hlf
      by (apply list_elem_of_filter; auto).
    destruct (filter (fun l' => author (h l') = Some a) posts);
      [inversion Hlf | simpl; lia]. }
  apply inj_le, IZR_le in Hn. change (IZR (Z.of_nat 1)) with 1 in Hn.
  set (n := IZR (Z.of_nat (length (filter (fun l' => author (h l') = Some a) posts)))) in *.
  assert (0.9 <= Rmax (1 - n * 0.02) 0.9 <= 0.98) as Hpen
    by (split; [apply Rmax_r | apply Rmax_lub; lra]).
  set (pen := Rmax (1 - n * 0.02) 0.9) in *.
  pose proof (rpow_nonneg ((clock j - ts) / 3600) 1.2) as Hr.
  set (x := rpow ((clock j - ts) / 3600) 1.2) in *.
  assert (1 / (1 + x) * (1 + x) = 1) as Hy by (field; lra).
  assert (0 < 1 / (1 + x)) as Hpos by (apply Rdiv_lt_0_compat; lra).
  set (y := 1 / (1 + x)) in *.
  set (b := bundle interaction_history trending_hashtags format_preferences (h l)) in *.
  assert (y <= 1) as Hy1 by nra.
  assert (0 <= b * y <= b) as Hby by nra.
  assert (b * y * pen <= b * y * 0.98) as H1 by (apply Rmult_le_compat_l; lra).
  assert (b * y * 0.98 <= b * 0.98) as H2 by (apply Rmult_le_compat_r; lra).
  split; [apply Rmult_le_pos; lra | lra].
Qed.

End CallReturns.

Lemma returns_iff_keys_present_witness :
  (exists out h',
     generate_feed (still 0) (example_heap 0) example_posts example_follows
       example_history example_trending example_formats = (Ok out, h')) <->
  Forall (has_author (example_heap 0)) example_posts /\
  forall l, l ∈ relevant example_follows (example_heap 0) example_posts ->
            complete (example_heap 0 l).
Proof.
  apply (returns_iff_keys_present (still 0) (example_heap 0) example_posts
           example_follows example_history example_trending example_formats).
  rewrite example_relevant. apply example_not_future.
Defined.

Lemma scenario_bundle (now : R) :
  bundle scenario_history example_trending scenario_formats (scenario_heap now 0%nat) = 76.5.
Proof.
  change (bundle scenario_history example_trending scenario_formats (scenario_heap now 0%nat))
    with (IZR 10 * 1.8 + IZR 5 * 1.4 + IZR 2 * 3 + IZR 3 * 4.5 + IZR 4 + IZR 6 + IZR 20
          + IZR 2).
  lra.
Qed.

Lemma final_score_at_most_98_percent_witness :
  exists x,
    final_score (store (scenario_heap 0) 0%nat
                   (set_final_score (PyFloat (76.5 * (1 / (1 + rpow 2 1.2)) * 0.98))
                      (scenario_post 0)) 0%nat)
    = Some (PyFloat x) /\
    0 <= x <= 0.98 * bundle scenario_history example_trending scenario_formats
                       (scenario_heap 0 0%nat).
Proof.
  apply (final_score_at_most_98_percent (still 0) (scenario_heap 0) [0%nat]
           scenario_follows scenario_history example_trending scenario_formats
           [0%nat] _ 0%nat (scenario_run 0)).
  - left.
  - intros l ts k Hl Hts _.
    change (l ∈ [0%nat]) in Hl. apply list_elem_of_singleton in Hl as ->.
    simpl in Hts. injection Hts as <-. unfold still. lra.
  - rewrite scenario_bundle. lra.
Defined.
